(** * The job-search assistant backend (AIOtest.py), embedded and verified

    The development follows the layout of the Python module:
    - the password digest ([hashlib.sha256(..).hexdigest()]) and the token
      generator ([secrets.token_hex(16)]);
    - the in-memory credential store [users] and session map [tokens] with the
      four endpoints [register], [login], [profile], [logout];
    - the PDF endpoints [extract_pdf_text] and [analyze_pdf];
    - the normalised job search [fetch_jobs_from_jsearch] / [get_jobs].

    Python [str] values that are only compared, hashed, split on an ASCII
    space or tested for emptiness are [string]s (their UTF-8 bytes); the text
    of a PDF, whose white space is classified per code point, is a list of
    code points.  External collaborators (the PDF reader, the chat-completion
    client, the HTTP client, the renderer of a JSON response and the random
    source) are inputs of the functions that call them. *)

From Stdlib Require Import ZArith List String Ascii Bool Lia DecimalString.
From stdpp Require Import base option list strings gmap.
Import ListNotations.

Set Warnings "-register-all".

(* ===================================================================== *)
(** * Part I: definitions                                                  *)
(* ===================================================================== *)

(** ** Hexadecimal rendering ([bytes.hex()], [binascii.hexlify]) *)

Definition hex_digit (d : Z) : ascii :=
  ascii_of_nat (Z.to_nat (if (d <? 10)%Z then 48 + d else 87 + d)%Z).

(** Two lowercase digits per byte, most significant nibble first. *)
Fixpoint hexlify (bs : list Z) : string :=
  match bs with
  | [] => EmptyString
  | b :: bs' =>
      String (hex_digit (Z.shiftr b 4))
        (String (hex_digit (Z.land b 15)) (hexlify bs'))
  end.

(** The [n] low-order bytes of [x], most significant first
    ([int.to_bytes(n, 'big')]). *)
Fixpoint be_bytes (n : nat) (x : Z) : list Z :=
  match n with
  | O => []
  | S n' => Z.land (Z.shiftr x (8 * Z.of_nat n')) 255 :: be_bytes n' x
  end.

(** ** SHA-256 (FIPS 180-4), the digest behind [hash_password] *)

Module Sha256.
Local Open Scope Z_scope.

Definition w32 (x : Z) : Z := Z.land x 4294967295.
Definition add32 (x y : Z) : Z := w32 (x + y).
Definition rotr (n x : Z) : Z := Z.lor (Z.shiftr x n) (w32 (Z.shiftl x (32 - n))).
Definition ch (x y z : Z) : Z := Z.lxor (Z.land x y) (Z.land (Z.lxor x 4294967295) z).
Definition maj (x y z : Z) : Z := Z.lxor (Z.lxor (Z.land x y) (Z.land x z)) (Z.land y z).
Definition bsig0 (x : Z) : Z := Z.lxor (Z.lxor (rotr 2 x) (rotr 13 x)) (rotr 22 x).
Definition bsig1 (x : Z) : Z := Z.lxor (Z.lxor (rotr 6 x) (rotr 11 x)) (rotr 25 x).
Definition ssig0 (x : Z) : Z := Z.lxor (Z.lxor (rotr 7 x) (rotr 18 x)) (Z.shiftr x 3).
Definition ssig1 (x : Z) : Z := Z.lxor (Z.lxor (rotr 17 x) (rotr 19 x)) (Z.shiftr x 10).

(** The round constants are the first 32 fractional bits of the cube roots of
    the first 64 primes, the initial hash value those of the square roots of
    the first 8; both are computed rather than tabulated. *)
Definition primes : list Z :=
  [2; 3; 5; 7; 11; 13; 17; 19; 23; 29; 31; 37; 41; 43; 47; 53;
   59; 61; 67; 71; 73; 79; 83; 89; 97; 101; 103; 107; 109; 113; 127; 131;
   137; 139; 149; 151; 157; 163; 167; 173; 179; 181; 191; 193; 197; 199; 211; 223;
   227; 229; 233; 239; 241; 251; 257; 263; 269; 271; 277; 281; 283; 293; 307; 311].

(** Integer cube root by bisection on the bits below [2^bits]. *)
Fixpoint icbrt_bits (bits : nat) (n r : Z) : Z :=
  match bits with
  | O => r
  | S b =>
      let c := r + 2 ^ Z.of_nat b in
      icbrt_bits b n (if c * c * c <=? n then c else r)
  end.

Definition frac_cbrt (p : Z) : Z := w32 (icbrt_bits 40 (p * 2 ^ 96) 0).
Definition frac_sqrt (p : Z) : Z := w32 (Z.sqrt (p * 2 ^ 64)).

Definition K : list Z := Eval vm_compute in map frac_cbrt primes.
Definition H0 : list Z := Eval vm_compute in map frac_sqrt (firstn 8 primes).

(** Padding: a [1] bit, zeros up to 56 mod 64, then the bit length on 64 bits. *)
Definition pad (msg : list Z) : list Z :=
  let len := Z.of_nat (length msg) in
  let zeros := Z.to_nat ((55 - len) mod 64) in
  msg ++ [128] ++ repeat 0 zeros ++ be_bytes 8 (8 * len).

Fixpoint words_of_bytes (bs : list Z) : list Z :=
  match bs with
  | b0 :: b1 :: b2 :: b3 :: rest =>
      (Z.shiftl b0 24 + Z.shiftl b1 16 + Z.shiftl b2 8 + b3) :: words_of_bytes rest
  | _ => []
  end.

(** The message schedule is grown newest word first: at step [t] the head of
    [rev_ws] is [W(t-1)]. *)
Fixpoint schedule (n : nat) (rev_ws : list Z) : list Z :=
  match n with
  | O => rev_ws
  | S n' =>
      let wt := add32 (add32 (ssig1 (nth 1 rev_ws 0)) (nth 6 rev_ws 0))
                      (add32 (ssig0 (nth 14 rev_ws 0)) (nth 15 rev_ws 0)) in
      schedule n' (wt :: rev_ws)
  end.

Record regs := Regs { ra : Z; rb : Z; rc : Z; rd : Z; re : Z; rf : Z; rg : Z; rh : Z }.

Definition round (s : regs) (kw : Z * Z) : regs :=
  let t1 := add32 (add32 (add32 (rh s) (bsig1 (re s))) (add32 (ch (re s) (rf s) (rg s)) (fst kw))) (snd kw) in
  let t2 := add32 (bsig0 (ra s)) (maj (ra s) (rb s) (rc s)) in
  Regs (add32 t1 t2) (ra s) (rb s) (rc s) (add32 (rd s) t1) (re s) (rf s) (rg s).

Definition regs_of (h : list Z) : regs :=
  Regs (nth 0 h 0) (nth 1 h 0) (nth 2 h 0) (nth 3 h 0)
       (nth 4 h 0) (nth 5 h 0) (nth 6 h 0) (nth 7 h 0).

Definition list_of (s : regs) : list Z :=
  [ra s; rb s; rc s; rd s; re s; rf s; rg s; rh s].

Definition compress (h : list Z) (block : list Z) : list Z :=
  let ws := rev (schedule 48 (rev (words_of_bytes block))) in
  let s := fold_left round (combine K ws) (regs_of h) in
  map (fun p => add32 (fst p) (snd p)) (combine h (list_of s)).

(** The blocks are consumed 64 bytes at a time; [fuel] bounds the number of
    blocks and is always taken large enough by [digest]. *)
Fixpoint blocks (fuel : nat) (h : list Z) (bs : list Z) : list Z :=
  match fuel, bs with
  | S f, _ :: _ => blocks f (compress h (firstn 64 bs)) (skipn 64 bs)
  | _, _ => h
  end.

Definition bytes_of_string (s : string) : list Z :=
  map (fun c => Z.of_nat (nat_of_ascii c)) (list_ascii_of_string s).

Definition digest (msg : list Z) : list Z :=
  let padded := pad msg in
  flat_map (be_bytes 4) (blocks (length padded) H0 padded).

Definition hexdigest (s : string) : string := hexlify (digest (bytes_of_string s)).

End Sha256.

(** ** Python helpers *)

(** [s.split(sep)] for a one-character separator: the fields between the
    occurrences of [sep], empty fields included; never the empty list. *)
Fixpoint split (sep : ascii) (s : string) : list string :=
  match s with
  | EmptyString => [EmptyString]
  | String c s' =>
      if Ascii.eqb c sep then EmptyString :: split sep s'
      else match split sep s' with
           | f :: fs => String c f :: fs
           | [] => [String c EmptyString]
           end
  end.

(** Truth value of a [str] and of an [Optional[str]]. *)
Definition truthy (s : string) : bool := negb (String.eqb s "").

Definition truthy_opt (o : option string) : bool :=
  match o with
  | Some s => truthy s
  | None => false
  end.

(** A [dict] with [str] keys, as the list of its items in insertion order. *)
Definition dict (V : Type) : Type := list (string * V).

Fixpoint dict_get {V : Type} (k : string) (d : dict V) : option V :=
  match d with
  | [] => None
  | (k', v) :: d' => if String.eqb k' k then Some v else dict_get k d'
  end.

Definition dict_mem {V : Type} (k : string) (d : dict V) : bool :=
  match dict_get k d with
  | Some _ => true
  | None => false
  end.

(** [d[k] = v]: an existing key keeps its position, a new key goes last. *)
Fixpoint dict_set {V : Type} (k : string) (v : V) (d : dict V) : dict V :=
  match d with
  | [] => [(k, v)]
  | (k', v') :: d' =>
      if String.eqb k' k then (k, v) :: d' else (k', v') :: dict_set k v d'
  end.

(** What an endpoint does: return a body, raise [HTTPException], or let an
    exception escape (FastAPI then answers 500). *)
Inductive result (A : Type) : Type :=
| Return (body : A)
| HTTPException (status_code : Z) (detail : string)
| Uncaught (exn : string).

Arguments Return {A} body.
Arguments HTTPException {A} status_code detail.
Arguments Uncaught {A} exn.

(** ** Users and tokens *)

Definition hash_password (password : string) : string :=
  Sha256.hexdigest password.

(** [secrets.token_hex(nbytes)]: [nbytes] bytes of the system random source,
    in hexadecimal.  The random bits drawn are the argument [entropy]. *)
Definition token_hex (nbytes : nat) (entropy : Z) : string :=
  hexlify (be_bytes nbytes entropy).

Record UserIn : Type := mkUserIn {
  username : string;
  password : string;
  email : option string
}.

(** A value of [users]: the dict with the keys [password] and [email]. *)
Record user_record : Type := mkRecord {
  r_password : string;
  r_email : option string
}.

#[global] Instance user_record_eq_dec : EqDecision user_record.
Proof. solve_decision. Defined.

Record state : Type := mkState {
  users : dict user_record;
  tokens : gmap string (option string)
}.

Definition initial : state := mkState [] ∅.

Definition register (user : UserIn) (st : state) : result string * state :=
  if dict_mem (username user) (users st) then
    (HTTPException 400 "Username already exists", st)
  else if truthy_opt (email user)
          && existsb (fun kv => bool_decide (r_email (snd kv) = email user)) (users st) then
    (HTTPException 400 "Email already registered", st)
  else
    (Return "User registered",
     mkState (dict_set (username user)
                (mkRecord (hash_password (password user)) (email user)) (users st))
             (tokens st)).

(** The record [login] settles on: the one stored under the identifier, else
    the first one in insertion order whose email is the identifier. *)
Definition lookup_record (identifier : string) (us : dict user_record) : option user_record :=
  match dict_get identifier us with
  | Some record => Some record
  | None =>
      snd <$> List.find (fun kv => bool_decide (r_email (snd kv) = Some identifier)) us
  end.

(** [next((k for k, v in users.items() if v == record), None)]. *)
Definition first_key_of (record : user_record) (us : dict user_record) : option string :=
  fst <$> List.find (fun kv => bool_decide (snd kv = record)) us.

Definition login (user : UserIn) (entropy : Z) (st : state) : result string * state :=
  let hashed_input := hash_password (password user) in
  match lookup_record (username user) (users st) with
  | None => (HTTPException 401 "Invalid username/email or password", st)
  | Some record =>
      if negb (String.eqb (r_password record) hashed_input) then
        (HTTPException 401 "Invalid username/email or password", st)
      else
        let token := token_hex 16 entropy in
        (Return token,
         mkState (users st) (<[token := first_key_of record (users st)]> (tokens st)))
  end.

(** The token of an [Authorization] header: [authorization.split(" ")[1]]
    once the header is known to start with the word Bearer and a space. *)
Definition bearer (authorization : string) : result string :=
  if negb (String.prefix "Bearer " authorization) then
    HTTPException 401 "Invalid auth header"
  else
    match nth_error (split " " authorization) 1 with
    | Some token => Return token
    | None => Uncaught "IndexError"
    end.

(** [tokens.get(token)]: [None] for a missing key and for a key bound to [None]. *)
Definition tokens_get (token : string) (st : state) : option string :=
  match tokens st !! token with
  | Some bound => bound
  | None => None
  end.

Definition profile (authorization : string) (st : state)
  : result (string * option string) :=
  match bearer authorization with
  | HTTPException c d => HTTPException c d
  | Uncaught e => Uncaught e
  | Return token =>
      match tokens_get token st with
      | None => HTTPException 401 "Invalid token"
      | Some uname =>
          (* [if not username] also rejects the empty string *)
          if negb (truthy uname) then HTTPException 401 "Invalid token"
          else
            match dict_get uname (users st) with
            | Some user => Return (uname, r_email user)
            | None => Uncaught "AttributeError"
            end
      end
  end.

Definition logout (authorization : string) (st : state) : result string * state :=
  match bearer authorization with
  | HTTPException c d => (HTTPException c d, st)
  | Uncaught e => (Uncaught e, st)
  | Return token =>
      match tokens st !! token with
      | None => (HTTPException 401 "Invalid token", st)
      | Some _ =>
          (Return "Logged out successfully",
           mkState (users st) (delete token (tokens st)))
      end
  end.

(** The calls the auth endpoints serve, and the state after one of them. *)
Inductive api_call : Type :=
| Register (user : UserIn)
| Login (user : UserIn) (entropy : Z)
| Profile (authorization : string)
| Logout (authorization : string).

Definition step (st : state) (rq : api_call) : state :=
  match rq with
  | Register user => snd (register user st)
  | Login user entropy => snd (login user entropy st)
  | Profile _ => st
  | Logout authorization => snd (logout authorization st)
  end.

Definition run (st : state) (rqs : list api_call) : state := fold_left step rqs st.

(** ** PDF text extraction *)

(** The text of a page, a Python [str], as its code points. *)
Definition pystr : Type := list N.

Definition str (s : string) : pystr :=
  map (fun c => N.of_nat (nat_of_ascii c)) (list_ascii_of_string s).

(** [str.isspace] on one code point: the characters [str.strip()] removes. *)
Definition isspace (c : N) : bool :=
  ((9 <=? c) && (c <=? 13) || (28 <=? c) && (c <=? 32)
   || (c =? 133) || (c =? 160) || (c =? 5760)
   || (8192 <=? c) && (c <=? 8202)
   || (c =? 8232) || (c =? 8233) || (c =? 8239) || (c =? 8287) || (c =? 12288))%N.

Fixpoint lstrip (s : pystr) : pystr :=
  match s with
  | c :: s' => if isspace c then lstrip s' else s
  | [] => []
  end.

Definition strip (s : pystr) : pystr := rev (lstrip (rev (lstrip s))).

Definition nonempty (s : pystr) : bool :=
  match s with
  | [] => false
  | _ :: _ => true
  end.

(** What [page.extract_text()] does on one page: return a [str] or [None],
    or raise. *)
Inductive page : Type :=
| ExtractText (t : option pystr)
| ExtractRaises (e : string).

(** What [PyPDF2.PdfReader(io.BytesIO(contents))] makes of an upload: a
    reader over the pages, or an exception when the container cannot be
    opened. *)
Inductive pdf : Type :=
| PdfReader (pages : list page)
| Unreadable (e : string).

(** [page.extract_text() or '']: a falsy result counts as the empty text. *)
Definition text_or_empty (t : option pystr) : pystr :=
  match t with
  | Some s => s
  | None => []
  end.

(** [''.join(page.extract_text() or '' for page in reader.pages)]: the pages
    are visited in order and the first one that raises ends the join. *)
Fixpoint join_pages (pages : list page) : string + pystr :=
  match pages with
  | [] => inr []
  | ExtractRaises e :: _ => inl e
  | ExtractText t :: rest =>
      match join_pages rest with
      | inl e => inl e
      | inr r => inr (text_or_empty t ++ r)
      end
  end.

Record extracted : Type := mkExtracted {
  text : pystr;
  warning : option string
}.

Definition extract_pdf_text (file : pdf) : result extracted :=
  match file with
  | Unreadable e => HTTPException 500 ("Failed to extract PDF: " +:+ e)
  | PdfReader pages =>
      match join_pages pages with
      | inl e => HTTPException 500 ("Failed to extract PDF: " +:+ e)
      | inr full_text =>
          if nonempty (strip full_text) then Return (mkExtracted full_text None)
          else Return (mkExtracted [] (Some "No extractable text found."))
      end
  end.

(** ** Resume analysis *)

Record message : Type := mkMessage {
  role : string;
  content : pystr
}.

(** What [client.chat.completions.create] answers: the [message.content] of
    each choice ([None] when the provider sends none), or an exception. *)
Inductive completion : Type :=
| Choices (contents : list (option pystr))
| CreateRaises (e : string).

(** The advisory endpoint, as a function of the model name and the messages. *)
Definition advisory : Type := string -> list message -> completion.

(** [response.choices[0].message.content.strip()] *)
Definition first_content (c : completion) : string + pystr :=
  match c with
  | CreateRaises e => inl e
  | Choices [] => inl "list index out of range"
  | Choices (None :: _) => inl "'NoneType' object has no attribute 'strip'"
  | Choices (Some s :: _) => inr (strip s)
  end.

(** The second component lists the calls made to the advisory endpoint. *)
Definition analyze_pdf (client : advisory) (file : pdf)
  : result pystr * list (string * list message) :=
  match file with
  | Unreadable e => (HTTPException 500 ("Failed to analyze PDF: " +:+ e), [])
  | PdfReader pages =>
      match join_pages pages with
      | inl e => (HTTPException 500 ("Failed to analyze PDF: " +:+ e), [])
      | inr text =>
          if negb (nonempty (strip text)) then
            (Return (str "No extractable text found in the PDF."), [])
          else
            let messages :=
              [mkMessage "system"
                 (str "You are a recruiter AI assistant. Provide feedback on the resume text.");
               mkMessage "user" text] in
            (match first_content (client "deepseek-chat" messages) with
             | inl e => HTTPException 500 ("Failed to analyze PDF: " +:+ e)
             | inr response => Return response
             end,
             [("deepseek-chat", messages)])
      end
  end.

(** ** Chat *)

(** The system message of the chat endpoint. *)
Definition mentor_instruction : string :=
  "You are a helpful mentor, providing feedback on user's resume's and their overall job search, you can provide helpful information such as what jobs they might be suited for, what they can do to improve their resume, what a cover letter for a job should look like, as well as compare their resume to a job description and requirements. It's useful to note that when a user shares their resume or cover letter with you, you don't keep it too uptight, the user most likely wants a professional but laid-back cover letter or resume, the only things you should look out for are grammatical errors, help them nail their resume and cover letter, but not go too overboard with it. Also bear in mind that some PDF files may have weird spacing, usually this isn't an issue unless the spelling is wrong.".

(** The second component lists the calls made to the advisory endpoint.  The
    detail of a failure is the text of the exception, with nothing added. *)
Definition get_ai_response (client : advisory) (user_input : pystr)
  : result pystr * list (string * list message) :=
  let messages :=
    [mkMessage "system" (str mentor_instruction); mkMessage "user" user_input] in
  (match first_content (client "deepseek-chat" messages) with
   | inl e => HTTPException 500 e
   | inr response => Return response
   end,
   [("deepseek-chat", messages)]).

(** ** Job search, normalised *)

(** A JSON value as [response.json()] yields it.  A number is kept as its
    literal: the code never computes with one.  An object is the list of its
    items in order. *)
Inductive json : Type :=
| JNull
| JBool (b : bool)
| JNum (literal : string)
| JStr (s : string)
| JArr (items : list json)
| JObj (items : list (string * json)).

(** The exceptions that can reach the handlers of [get_jobs]. *)
Inductive exn : Type :=
| HTTPError
| ConnectionError
| Timeout
| JSONDecodeError
| AttributeError
| TypeError.

(** [isinstance(e, requests.HTTPError)] *)
Definition is_HTTPError (e : exn) : bool :=
  match e with
  | HTTPError => true
  | _ => false
  end.

(** A computation that returns or raises. *)
Inductive py (A : Type) : Type :=
| Ok (a : A)
| Raise (e : exn).

Arguments Ok {A} a.
Arguments Raise {A} e.

Definition py_bind {A B : Type} (x : py A) (k : A -> py B) : py B :=
  match x with
  | Ok a => k a
  | Raise e => Raise e
  end.

Notation "'do' x <- e 'in' k" := (py_bind e (fun x => k))
  (at level 10, x name, e at level 100, k at level 200).

Fixpoint py_map {A B : Type} (f : A -> py B) (l : list A) : py (list B) :=
  match l with
  | [] => Ok []
  | a :: l' => do b <- f a in do bs <- py_map f l' in Ok (b :: bs)
  end.

Record http_request : Type := mkRequest {
  url : string;
  headers : dict (option string);
  params : dict string
}.

(** What [requests.get] does: a response with its status and, when the body
    parses, its JSON; or an exception. *)
Inductive http_outcome : Type :=
| Response (status : Z) (body : option json)
| Raises (e : exn).

Definition http_client : Type := http_request -> http_outcome.

(** [str(page)] *)
Definition str_of_int (n : Z) : string := NilZero.string_of_int (Z.to_int n).

Definition fields : list string :=
  ["job_title"; "employer_name"; "job_min_salary"; "job_max_salary";
   "job_employment_type"; "job_city"; "job_country"; "job_description";
   "job_highlights"; "job_apply_link"; "employer_logo"; "job_is_remote";
   "job_posted_at_datetime_utc"; "job_required_experience"].

Definition jsearch_request (env_key : option string) (query : string) (page : Z)
  : http_request :=
  mkRequest "https://jsearch.p.rapidapi.com/search"
    [("X-RapidAPI-Key", env_key); ("X-RapidAPI-Host", Some "jsearch.p.rapidapi.com")]
    [("query", query); ("page", str_of_int page); ("num_pages", "1");
     ("country", "GB"); ("date_posted", "week"); ("work_from_home", "true");
     ("fields", String.concat "," fields)].

(** [response.raise_for_status()] raises for the statuses 400 to 599. *)
Definition raise_for_status (status : Z) : py unit :=
  if ((400 <=? status) && (status <? 600))%Z then Raise HTTPError else Ok tt.

(** [d.get(key, default)] on a value: only an object has the method. *)
Definition get (v : json) (key : string) (default : json) : py json :=
  match v with
  | JObj items =>
      Ok (match dict_get key items with
          | Some x => x
          | None => default
          end)
  | _ => Raise AttributeError
  end.

(** [env_key] is [os.getenv] of the provider credential.  The second
    component lists the requests sent. *)
Definition fetch_jobs_from_jsearch (env_key : option string) (requests_get : http_client)
    (query : string) (page : Z) : py json * list http_request :=
  let rq := jsearch_request env_key query page in
  (match requests_get rq with
   | Raises e => Raise e
   | Response status body =>
       do _ <- raise_for_status status in
       match body with
       | None => Raise JSONDecodeError
       | Some j => get j "data" (JArr [])
       end
   end, [rq]).

(** [for job in jobs]: a list yields its items, an object its keys, a string
    its characters; nothing else can be iterated. *)
Definition iterate (jobs : json) : py (list json) :=
  match jobs with
  | JArr items => Ok items
  | JObj items => Ok (map (fun kv => JStr (fst kv)) items)
  | JStr s => Ok (map (fun c => JStr (String c EmptyString)) (list_ascii_of_string s))
  | _ => Raise TypeError
  end.

(** The dict built for one provider record, key by key in the order of the
    source. *)
Definition normalize (job : json) : py (dict json) :=
  do title <- get job "job_title" (JStr "N/A") in
  do company <- get job "employer_name" (JStr "N/A") in
  do salary <- get job "job_min_salary" (JStr "N/A") in
  do max_salary <- get job "job_max_salary" (JStr "N/A") in
  do employment_type <- get job "job_employment_type" (JStr "N/A") in
  do location <- get job "job_city" (JStr "N/A") in
  do country <- get job "job_country" (JStr "N/A") in
  do description <- get job "job_description" (JStr "N/A") in
  do experience <- get job "job_required_experience" (JObj []) in
  do requirements <- get experience "required_qualification" (JStr "N/A") in
  do job_highlights <- get job "job_highlights" (JObj []) in
  do highlights <- get job_highlights "Qualifications" (JArr []) in
  do logo <- get job "employer_logo" JNull in
  do remote <- get job "job_is_remote" (JBool false) in
  do date_posted <- get job "job_posted_at_datetime_utc" (JStr "N/A") in
  do apply_link <- get job "job_apply_link" (JStr "N/A") in
  Ok [("title", title); ("company", company); ("salary", salary);
      ("max_salary", max_salary); ("employment_type", employment_type);
      ("location", location); ("country", country); ("description", description);
      ("requirements", requirements); ("highlights", highlights);
      ("logo", logo); ("remote", remote); ("date_posted", date_posted);
      ("apply_link", apply_link)].

(** The body of the [try] block of [get_jobs]: fetch (on the worker pool, here
    simply called), then build the list of dicts. *)
Definition get_jobs_body (env_key : option string) (requests_get : http_client)
    (query : string) (page : Z) : py (list (dict json)) * list http_request :=
  let (fetched, sent) := fetch_jobs_from_jsearch env_key requests_get query page in
  (do jobs <- fetched in do items <- iterate jobs in py_map normalize items, sent).

(** The endpoint returns the dict with the single key [data]; the body kept
    here is its value.  The two handlers are tried in the order of the
    source. *)
Definition get_jobs (env_key : option string) (requests_get : http_client)
    (query : string) (page : Z) : result (list (dict json)) * list http_request :=
  let (outcome, sent) := get_jobs_body env_key requests_get query page in
  (match outcome with
   | Ok results => Return results
   | Raise e =>
       if is_HTTPError e then HTTPException 502 "External API error"
       else HTTPException 500 "Internal server error"
   end, sent).

(** ** Job search, pass-through *)

(** [if v: params[k] = v] *)
Definition param_if (k : string) (v : option string) : dict string :=
  match v with
  | Some s => if truthy s then [(k, s)] else []
  | None => []
  end.

(** [JSONResponse(content=...)] renders its content to the bytes of the body
    when it is built, which happens inside the [try] of [search_jobs].  The
    rendering is Starlette's; it raises for a float that JSON cannot write
    (an out-of-range value, or a NaN), and [None] stands for that
    exception. *)
Definition renderer : Type := json -> option string.

(** [RAPIDAPI_KEY] is the credential read when the module is loaded.  The
    answer is the body rendered from the JSON of the provider; the second
    component lists the requests sent.  Whatever is raised inside the [try],
    by the request, by the status check, by the parsing or by the rendering,
    is answered 500. *)
Definition search_jobs (RAPIDAPI_KEY : option string) (requests_get : http_client)
    (render : renderer)
    (query : string) (location country employment_type : option string)
  : result string * list http_request :=
  if negb (truthy_opt RAPIDAPI_KEY) then (HTTPException 500 "Missing API key", [])
  else
    let enhanced_query :=
      String.concat " "
        (omap (fun o => if truthy_opt o then o else None) [Some query; location; country]) in
    let rq :=
      mkRequest "https://jsearch.p.rapidapi.com/search"
        [("X-RapidAPI-Key", RAPIDAPI_KEY); ("X-RapidAPI-Host", Some "jsearch.p.rapidapi.com")]
        ([("query", enhanced_query); ("page", "1"); ("num_pages", "1"); ("date_posted", "week")]
         ++ param_if "job_city" location
         ++ param_if "country" country
         ++ param_if "employment_types" employment_type) in
    (match requests_get rq with
     | Raises _ => HTTPException 500 "Job search failed."
     | Response status body =>
         match raise_for_status status, body with
         | Ok _, Some j =>
             match render j with
             | Some rendered => Return rendered
             | None => HTTPException 500 "Job search failed."
             end
         | _, _ => HTTPException 500 "Job search failed."
         end
     end, [rq]).

(** ** Vocabulary of the statements *)

(** Some stored record carries the email [e]. *)
Definition email_taken (e : string) (us : dict user_record) : Prop :=
  exists kv, In kv us /\ r_email (snd kv) = Some e.

(** The call does not hand out [token]: it is no login, or it is a login whose
    random bits spell another token. *)
Definition never_issues (token : string) (rq : api_call) : Prop :=
  match rq with
  | Login _ entropy => token_hex 16 entropy <> token
  | _ => True
  end.


(** The page's extraction returns (a text or [None]) rather than raises. *)
Definition returns_text (p : page) : Prop :=
  match p with
  | ExtractText _ => True
  | ExtractRaises _ => False
  end.

(** What a page contributes to the joined text. *)
Definition page_text (p : page) : pystr :=
  match p with
  | ExtractText t => text_or_empty t
  | ExtractRaises _ => []
  end.

(** The keys of the dict that [get_jobs] builds for a provider record. *)
Definition listing_keys : list string :=
  ["title"; "company"; "salary"; "max_salary"; "employment_type"; "location";
   "country"; "description"; "requirements"; "highlights"; "logo"; "remote";
   "date_posted"; "apply_link"].

(** For each key, the provider field it is read from and the default given to
    [get] on the record itself. *)
Definition placeholders : list (string * string * json) :=
  [("title", "job_title", JStr "N/A");
   ("company", "employer_name", JStr "N/A");
   ("salary", "job_min_salary", JStr "N/A");
   ("max_salary", "job_max_salary", JStr "N/A");
   ("employment_type", "job_employment_type", JStr "N/A");
   ("location", "job_city", JStr "N/A");
   ("country", "job_country", JStr "N/A");
   ("description", "job_description", JStr "N/A");
   ("requirements", "job_required_experience", JStr "N/A");
   ("highlights", "job_highlights", JArr []);
   ("logo", "employer_logo", JNull);
   ("remote", "job_is_remote", JBool false);
   ("date_posted", "job_posted_at_datetime_utc", JStr "N/A");
   ("apply_link", "job_apply_link", JStr "N/A")].

(** The keys the specification lists for a normalised listing. *)
Definition spec_listing_keys : list string :=
  ["title"; "company"; "salary_min"; "salary_max"; "employment_type"; "location";
   "country"; "description"; "requirements"; "highlights"; "logo"; "remote";
   "date_posted"; "apply_link"].

(** The shape of one listing built from the provider record [job]: the keys,
    the placeholder for every key whose field is missing from the record,
    and the placeholder of [requirements] and [highlights] when the object
    they are read from is there and lacks the inner key. *)
Definition listing_of (job : json) (listing : dict json) : Prop :=
  exists items,
    job = JObj items
    /\ map fst listing = listing_keys
    /\ (forall key field placeholder,
          In (key, field, placeholder) placeholders ->
          dict_get field items = None ->
          dict_get key listing = Some placeholder)
    /\ (forall experience,
          dict_get "job_required_experience" items = Some (JObj experience) ->
          dict_get "required_qualification" experience = None ->
          dict_get "requirements" listing = Some (JStr "N/A"))
    /\ (forall job_highlights,
          dict_get "job_highlights" items = Some (JObj job_highlights) ->
          dict_get "Qualifications" job_highlights = None ->
          dict_get "highlights" listing = Some (JArr [])).

(** The provider answered with an HTTP error: [requests.get] raised
    [HTTPError], or the status of the response is one [raise_for_status]
    raises for. *)
Definition provider_http_error (o : http_outcome) : Prop :=
  o = Raises HTTPError
  \/ exists status body, o = Response status body /\ (400 <= status < 600)%Z.

(** The non-empty emails stored in [users], in insertion order. *)
Definition stored_emails (us : dict user_record) : list string :=
  flat_map (fun kv => match r_email (snd kv) with
                      | Some e => if truthy e then [e] else []
                      | None => []
                      end) us.

(** No username is stored twice and no non-empty email is stored twice. *)
Definition users_unique (st : state) : Prop :=
  NoDup (map fst (users st)) /\ NoDup (stored_emails (users st)).

(** The value is absent or an object: what the nested [get] of [normalize]
    accepts for [job_required_experience] and [job_highlights]. *)
Definition absent_or_object (v : option json) : Prop :=
  match v with
  | None | Some (JObj _) => True
  | Some _ => False
  end.

(** A provider record that [normalize] accepts. *)
Definition well_formed_record (job : json) : Prop :=
  match job with
  | JObj items =>
      absent_or_object (dict_get "job_required_experience" items)
      /\ absent_or_object (dict_get "job_highlights" items)
  | _ => False
  end.

(** The keys whose value is read straight from a field of the provider
    record. *)
Definition direct_fields : list (string * string) :=
  [("title", "job_title"); ("company", "employer_name"); ("salary", "job_min_salary");
   ("max_salary", "job_max_salary"); ("employment_type", "job_employment_type");
   ("location", "job_city"); ("country", "job_country");
   ("description", "job_description"); ("logo", "employer_logo");
   ("remote", "job_is_remote"); ("date_posted", "job_posted_at_datetime_utc");
   ("apply_link", "job_apply_link")].

(** Every field present in the provider record reaches the listing as it is,
    null included; the two nested fields are read from their object. *)
Definition passes_through (job : json) (listing : dict json) : Prop :=
  exists items,
    job = JObj items
    /\ (forall key field v,
          In (key, field) direct_fields ->
          dict_get field items = Some v -> dict_get key listing = Some v)
    /\ (forall experience v,
          dict_get "job_required_experience" items = Some (JObj experience) ->
          dict_get "required_qualification" experience = Some v ->
          dict_get "requirements" listing = Some v)
    /\ (forall job_highlights v,
          dict_get "job_highlights" items = Some (JObj job_highlights) ->
          dict_get "Qualifications" job_highlights = Some v ->
          dict_get "highlights" listing = Some v).

(** The provider answered with a status that is no error and a body that is
    an object; [data] is what [get] reads under the key [data]. *)
Definition answered_with (o : http_outcome) (data : json) : Prop :=
  exists status body,
    o = Response status (Some body)
    /\ ~ (400 <= status < 600)%Z
    /\ get body "data" (JArr []) = Ok data.

(** The text neither starts nor ends with a white-space character. *)
Definition trimmed (s : pystr) : Prop :=
  (forall c r, s = c :: r -> isspace c = false)
  /\ (forall r c, s = r ++ [c] -> isspace c = false).

(** ** Sample inputs used by the examples below *)

Definition alice : UserIn := mkUserIn "alice" "pw" None.
Definition bob : UserIn := mkUserIn "bob" "pw" None.

(** [alice] registered and logged in; the random source gave the bits of 7. *)
Definition alice_session : state := run initial [Register alice; Login alice 7].
Definition alice_header : string := "Bearer " +:+ token_hex 16 7.

(** A provider that always answers the same way. *)
Definition const_client (o : http_outcome) : http_client := fun _ => o.

(** A renderer that always answers the same way. *)
Definition const_renderer (o : option string) : renderer := fun _ => o.

(** A provider answer with one record, which has a title and neither
    [employer_logo] nor [job_is_remote]. *)
Definition sample_record : json := JObj [("job_title", JStr "Developer")].

Definition sample_provider : http_client :=
  const_client (Response 200 (Some (JObj [("status", JStr "OK"); ("data", JArr [sample_record])]))).

Definition sample_listing : dict json :=
  [("title", JStr "Developer"); ("company", JStr "N/A"); ("salary", JStr "N/A");
   ("max_salary", JStr "N/A"); ("employment_type", JStr "N/A");
   ("location", JStr "N/A"); ("country", JStr "N/A"); ("description", JStr "N/A");
   ("requirements", JStr "N/A"); ("highlights", JArr []);
   ("logo", JNull); ("remote", JBool false); ("date_posted", JStr "N/A");
   ("apply_link", JStr "N/A")].

(** A provider record whose nested objects are there and lack the keys read
    from them, and the listing built from it. *)
Definition nested_record : json :=
  JObj [("job_title", JStr "Tester");
        ("job_required_experience", JObj [("no_experience_required", JBool false)]);
        ("job_highlights", JObj [("Benefits", JArr [JStr "Pension"])])].

Definition nested_listing : dict json :=
  [("title", JStr "Tester"); ("company", JStr "N/A"); ("salary", JStr "N/A");
   ("max_salary", JStr "N/A"); ("employment_type", JStr "N/A");
   ("location", JStr "N/A"); ("country", JStr "N/A"); ("description", JStr "N/A");
   ("requirements", JStr "N/A"); ("highlights", JArr []);
   ("logo", JNull); ("remote", JBool false); ("date_posted", JStr "N/A");
   ("apply_link", JStr "N/A")].

(** The provider answers with [sample_record] and [nested_record]. *)
Definition two_record_provider : http_client :=
  const_client (Response 200 (Some (JObj [("data", JArr [sample_record; nested_record])]))).

(** A provider record with a null logo and a nested experience object, and
    the listing built from it. *)
Definition detailed_record : json :=
  JObj [("job_title", JStr "Analyst"); ("employer_logo", JNull);
        ("job_min_salary", JNum "30000");
        ("job_required_experience", JObj [("required_qualification", JStr "BSc")])].

Definition detailed_provider : http_client :=
  const_client (Response 200 (Some (JObj [("data", JArr [detailed_record])]))).

Definition detailed_listing : dict json :=
  [("title", JStr "Analyst"); ("company", JStr "N/A"); ("salary", JNum "30000");
   ("max_salary", JStr "N/A"); ("employment_type", JStr "N/A");
   ("location", JStr "N/A"); ("country", JStr "N/A"); ("description", JStr "N/A");
   ("requirements", JStr "BSc"); ("highlights", JArr []);
   ("logo", JNull); ("remote", JBool false); ("date_posted", JStr "N/A");
   ("apply_link", JStr "N/A")].

(** A chat-completion endpoint that always answers the same way. *)
Definition const_advisory (c : completion) : advisory := fun _ _ => c.

(* ===================================================================== *)
(** * Part II: properties                                                  *)
(* ===================================================================== *)

(** ** The digest agrees with the published SHA-256 test vectors *)

Example sha256_empty :
  Sha256.hexdigest "" = "e3b0c44298fc1c149afbf4c8996fb92427ae41e4649b934ca495991b7852b855".
Proof. vm_compute. reflexivity. Qed.

Example sha256_abc :
  Sha256.hexdigest "abc" = "ba7816bf8f01cfea414140de5dae2223b00361a396177a9cb410ff61f20015ad".
Proof. vm_compute. reflexivity. Qed.

Example sha256_two_blocks :
  Sha256.hexdigest "abcdbcdecdefdefgefghfghighijhijkijkljklmklmnlmnomnopnopq"
  = "248d6a61d20638b8e5c026930c3e6039a33ce45964ff2167f6ecedd419db06c1".
Proof. vm_compute. reflexivity. Qed.

Example token_hex_example :
  token_hex 16 (2 ^ 127 + 255) = "800000000000000000000000000000ff".
Proof. vm_compute. reflexivity. Qed.

Example split_example :
  split " " "Bearer abc def" = ["Bearer"; "abc"; "def"].
Proof. reflexivity. Qed.

Example strip_example :
  strip ([32; 9]%N ++ str "a b" ++ [10; 160]%N) = str "a b".
Proof. reflexivity. Qed.

(** ** Dictionaries *)

Section Dict.
Context {V : Type}.
Implicit Types (d : dict V) (k : string) (v : V).

Lemma dict_get_In k v d : dict_get k d = Some v -> In (k, v) d.
Proof.
  induction d as [|[k' v'] d IH]; simpl; [discriminate|].
  destruct (String.eqb_spec k' k) as [->|_].
  - intros [= ->]. now left.
  - intros H. right. now apply IH.
Qed.


Lemma dict_mem_false k d : dict_mem k d = false -> dict_get k d = None.
Proof. unfold dict_mem. now destruct (dict_get k d). Qed.


(** Storing under a key that is not present appends the item. *)
Lemma dict_set_fresh k v d : dict_get k d = None -> dict_set k v d = (d ++ [(k, v)]).
Proof.
  induction d as [|[k' v'] d IH]; simpl; [reflexivity|].
  destruct (String.eqb k' k); [discriminate|].
  intros H. now rewrite IH.
Qed.


Lemma find_some_In (f : string * V -> bool) d kv : List.find f d = Some kv -> In kv d /\ f kv = true.
Proof. apply List.find_some. Qed.

End Dict.

(** ** The Authorization header *)



Lemma split_bearer (rest : string) :
  split " " ("Bearer " +:+ rest) = "Bearer" :: split " " rest.
Proof. reflexivity. Qed.

Lemma prefix_bearer (rest : string) : String.prefix "Bearer " ("Bearer " +:+ rest) = true.
Proof. destruct rest; reflexivity. Qed.


Lemma split_no_sep (sep : ascii) (s : string) :
  Forall (fun c => c <> sep) (list_ascii_of_string s) -> split sep s = [s].
Proof.
  induction s as [|c s IH]; simpl; [reflexivity|].
  intros H. inversion H as [|? ? Hc Hs]; subst.
  destruct (Ascii.eqb_spec c sep); [contradiction|].
  now rewrite (IH Hs).
Qed.

(** A token without a space is read back from its header. *)
Lemma bearer_token (token : string) :
  Forall (fun c => c <> " "%char) (list_ascii_of_string token) ->
  bearer ("Bearer " +:+ token) = Return token.
Proof.
  intros H. unfold bearer.
  rewrite prefix_bearer, split_bearer, (split_no_sep _ _ H). reflexivity.
Qed.

Lemma hex_digit_not_space (d : Z) : (0 <= d < 16)%Z -> hex_digit d <> " "%char.
Proof.
  intros Hd.
  assert (Hc : In d [0; 1; 2; 3; 4; 5; 6; 7; 8; 9; 10; 11; 12; 13; 14; 15]%Z) by (simpl; lia).
  simpl in Hc.
  repeat (destruct Hc as [<-|Hc]; [discriminate|]). contradiction.
Qed.

Lemma hexlify_no_space (bs : list Z) :
  Forall (fun b => 0 <= b < 256)%Z bs ->
  Forall (fun c => c <> " "%char) (list_ascii_of_string (hexlify bs)).
Proof.
  induction 1 as [|b bs Hb _ IH]; simpl; constructor.
  - apply hex_digit_not_space. split.
    + apply Z.shiftr_nonneg. lia.
    + rewrite Z.shiftr_div_pow2 by lia. apply Z.div_lt_upper_bound; lia.
  - constructor; [|exact IH].
    apply hex_digit_not_space. change 15%Z with (Z.ones 4).
    rewrite Z.land_ones by lia. apply Z.mod_pos_bound. lia.
Qed.

Lemma be_bytes_range (n : nat) (x : Z) : Forall (fun b => 0 <= b < 256)%Z (be_bytes n x).
Proof.
  induction n as [|n IH]; simpl; constructor; [|exact IH].
  change 255%Z with (Z.ones 8). rewrite Z.land_ones by lia.
  apply Z.mod_pos_bound. lia.
Qed.

(** A generated token is read back from the header that carries it. *)
Lemma bearer_token_hex (nbytes : nat) (entropy : Z) :
  bearer ("Bearer " +:+ token_hex nbytes entropy) = Return (token_hex nbytes entropy).
Proof. apply bearer_token, hexlify_no_space, be_bytes_range. Qed.

(** The digest and the token generator are only computed on closed inputs;
    the proofs below never look inside them. *)
#[global] Opaque hash_password token_hex.

(** ** Registration *)

Lemma existsb_email_taken (e : string) (us : dict user_record) :
  existsb (fun kv => bool_decide (r_email (snd kv) = Some e)) us = true <-> email_taken e us.
Proof.
  unfold email_taken. rewrite List.existsb_exists.
  split; intros [kv [Hin H]]; exists kv; split; auto.
  - now apply bool_decide_eq_true in H.
  - now apply bool_decide_eq_true.
Qed.

Lemma truthy_true (s : string) : truthy s = true <-> s <> "".
Proof.
  unfold truthy. destruct (String.eqb_spec s ""); simpl; split; congruence.
Qed.

Lemma truthy_false (s : string) : truthy s = false <-> s = "".
Proof.
  unfold truthy. destruct (String.eqb_spec s ""); simpl; split; congruence.
Qed.

(** C7 (as amended).  [register] answers 400 with the detail
    [Username already exists] when the username is a key of [users];
    otherwise it answers 400 with [Email already registered] when a non-empty
    email is supplied and some stored record carries it; otherwise it appends
    exactly the record made of the SHA-256 digest of the password and the
    email, under the username, and touches nothing else.  On both failures
    the state is returned as it was. *)
Theorem register_outcomes (user : UserIn) (st : state) :
  (dict_mem (username user) (users st) = true ->
   register user st = (HTTPException 400 "Username already exists", st))
  /\ (dict_mem (username user) (users st) = false ->
      forall e, email user = Some e -> e <> "" -> email_taken e (users st) ->
      register user st = (HTTPException 400 "Email already registered", st))
  /\ (dict_mem (username user) (users st) = false ->
      (forall e, email user = Some e -> e <> "" -> ~ email_taken e (users st)) ->
      register user st =
        (Return "User registered",
         mkState (users st ++ [(username user,
                                mkRecord (hash_password (password user)) (email user))])
                 (tokens st))).
Proof.
  unfold register. repeat split.
  - intros ->. reflexivity.
  - intros -> e He Hne Htaken. rewrite He. simpl.
    apply truthy_true in Hne. rewrite Hne. simpl.
    apply existsb_email_taken in Htaken. now rewrite Htaken.
  - intros Hfresh Hfree. rewrite Hfresh.
    rewrite (dict_set_fresh _ _ _ (dict_mem_false _ _ Hfresh)).
    destruct (email user) as [e|] eqn:He; simpl; [|reflexivity].
    destruct (truthy e) eqn:Ht; simpl; [|reflexivity].
    destruct (existsb _ (users st)) eqn:Hex; [|reflexivity].
    apply existsb_email_taken in Hex. apply truthy_true in Ht.
    now destruct (Hfree e eq_refl Ht).
Qed.

(** The three cases on concrete calls: a fresh user, the same username again,
    and a second username with the first one's email. *)
Lemma register_outcomes_witness :
  let carol := mkUserIn "carol" "s3cret" (Some "carol@example.org") in
  let dave := mkUserIn "dave" "hunter2" (Some "carol@example.org") in
  let st := snd (register carol initial) in
  users st = [("carol", mkRecord (hash_password "s3cret") (Some "carol@example.org"))]
  /\ register carol st = (HTTPException 400 "Username already exists", st)
  /\ register dave st = (HTTPException 400 "Email already registered", st).
Proof.
  cbv zeta.
  set (carol := mkUserIn "carol" "s3cret" (Some "carol@example.org")).
  set (dave := mkUserIn "dave" "hunter2" (Some "carol@example.org")).
  destruct (register_outcomes carol initial) as (_ & _ & Hnew).
  assert (H0 : register carol initial =
               (Return "User registered",
                mkState [("carol", mkRecord (hash_password "s3cret") (Some "carol@example.org"))] ∅)).
  { apply Hnew; [reflexivity|]. intros e _ _ [kv [[] _]]. }
  rewrite H0. simpl. split; [reflexivity|].
  set (st := mkState _ _).
  destruct (register_outcomes carol st) as (Hdup & _ & _).
  destruct (register_outcomes dave st) as (_ & Hmail & _).
  split.
  - apply Hdup. reflexivity.
  - apply (Hmail eq_refl "carol@example.org" eq_refl); [discriminate|].
    exists ("carol", mkRecord (hash_password "s3cret") (Some "carol@example.org")).
    split; [now left | reflexivity].
Defined.

(** C7, the claim as worded fails: an email that is supplied as the empty
    string and is already stored for another user does not stop the
    registration, because the guard tests the truth value of the email. *)
Lemma register_empty_email_twice :
  let a := mkUserIn "a" "pw" (Some "") in
  let b := mkUserIn "b" "pw" (Some "") in
  let st := snd (register a initial) in
  email b = Some ""
  /\ dict_mem (username b) (users st) = false
  /\ email_taken "" (users st)
  /\ fst (register b st) = Return "User registered"
  /\ map fst (users (snd (register b st))) = ["a"; "b"].
Proof.
  cbv zeta. repeat split; try (vm_compute; reflexivity).
  exists ("a", mkRecord (hash_password "pw") (Some "")).
  split; vm_compute; [left|]; reflexivity.
Qed.

(** ** Login and the session map *)

(** The record [login] settles on is stored, and the reverse lookup finds a
    key of [users] for it: the first key whose record has the same value. *)
Lemma lookup_record_In (identifier : string) (us : dict user_record) (record : user_record) :
  lookup_record identifier us = Some record -> exists k, In (k, record) us.
Proof.
  unfold lookup_record. destruct (dict_get identifier us) as [r|] eqn:Hget.
  - intros [= ->]. exists identifier. now apply dict_get_In.
  - destruct (List.find _ us) as [[k r]|] eqn:Hfind; simpl; [|discriminate].
    intros [= ->]. apply find_some_In in Hfind as [Hin _]. now exists k.
Qed.

Lemma first_key_of_In (record : user_record) (us : dict user_record) (k : string) :
  In (k, record) us ->
  exists k', first_key_of record us = Some k' /\ In (k', record) us.
Proof.
  intros Hin. unfold first_key_of.
  destruct (List.find _ us) as [[k' r]|] eqn:Hfind; simpl.
  - apply find_some_In in Hfind as [Hin' Heq]. simpl in Heq.
    apply bool_decide_eq_true in Heq. subst r. eauto.
  - exfalso. apply (List.find_none _ _ Hfind) in Hin. simpl in Hin.
    now rewrite bool_decide_eq_false in Hin.
Qed.

(** What a successful [login] does to the state. *)
Lemma login_cases (user : UserIn) (entropy : Z) (st : state) :
  login user entropy st = (HTTPException 401 "Invalid username/email or password", st)
  \/ exists record k,
       lookup_record (username user) (users st) = Some record
       /\ r_password record = hash_password (password user)
       /\ first_key_of record (users st) = Some k
       /\ In (k, record) (users st)
       /\ login user entropy st =
            (Return (token_hex 16 entropy),
             mkState (users st) (<[token_hex 16 entropy := Some k]> (tokens st))).
Proof.
  unfold login. destruct (lookup_record _ _) as [record|] eqn:Hrec; [|now left].
  destruct (String.eqb_spec (r_password record) (hash_password (password user))) as [Hpw|_];
    simpl; [|now left].
  right. destruct (lookup_record_In _ _ _ Hrec) as [k0 Hin0].
  destruct (first_key_of_In _ _ _ Hin0) as (k & Hk & Hin).
  exists record, k. rewrite Hk. auto.
Qed.

(** When the identifier is a username whose record is the first of its value
    in [users], and the username is not empty, [login] followed by [profile]
    answers that username and the stored email. *)
Lemma login_then_profile (user : UserIn) (entropy : Z) (st : state) (record : user_record) :
  dict_get (username user) (users st) = Some record ->
  r_password record = hash_password (password user) ->
  first_key_of record (users st) = Some (username user) ->
  username user <> "" ->
  exists token st',
    login user entropy st = (Return token, st')
    /\ profile ("Bearer " +:+ token) st' = Return (username user, r_email record).
Proof.
  intros Hget Hpw Hfirst Hne.
  exists (token_hex 16 entropy). eexists. split.
  - unfold login, lookup_record. rewrite Hget, Hpw, String.eqb_refl, Hfirst. simpl.
    reflexivity.
  - unfold profile, tokens_get. rewrite bearer_token_hex. simpl.
    rewrite lookup_insert_eq. apply truthy_true in Hne. rewrite Hne. simpl.
    now rewrite Hget.
Qed.

(** C1, evaluated where the code departs from it.  [alice] and [bob] register
    with the same password and no email, so their records are equal; [bob]
    then logs in with his own username and password.  The token he receives
    is bound to [alice] (the first key whose record equals his), and
    [profile] with that token answers [alice]. *)
Theorem login_binds_first_equal_record :
  let st := run initial [Register alice; Register bob] in
  let token := token_hex 16 0 in
  map fst (users st) = ["alice"; "bob"]
  /\ dict_get "alice" (users st) = dict_get "bob" (users st)
  /\ fst (login bob 0 st) = Return token
  /\ tokens (snd (login bob 0 st)) !! token = Some (Some "alice")
  /\ profile ("Bearer " +:+ token) (snd (login bob 0 st)) = Return ("alice", None).
Proof. cbv zeta. repeat split; vm_compute; reflexivity. Qed.

(** ** Logout *)

Lemma register_tokens (user : UserIn) (st : state) :
  tokens (snd (register user st)) = tokens st.
Proof.
  unfold register. destruct (dict_mem _ _); [reflexivity|].
  destruct (truthy_opt _ && existsb _ _); reflexivity.
Qed.

Lemma step_keeps_revoked (token : string) (st : state) (rq : api_call) :
  never_issues token rq ->
  tokens st !! token = None -> tokens (step st rq) !! token = None.
Proof.
  intros Hrq Hnone. destruct rq as [user|user entropy|a|a]; simpl in *.
  - now rewrite register_tokens.
  - destruct (login_cases user entropy st) as [->|(record & k & _ & _ & _ & _ & ->)];
      simpl; [exact Hnone|].
    now rewrite lookup_insert_ne.
  - exact Hnone.
  - unfold logout. destruct (bearer a) as [t| |]; simpl; try exact Hnone.
    destruct (tokens st !! t) eqn:Ht; simpl; [|exact Hnone].
    destruct (decide (t = token)) as [->|Hne].
    + apply lookup_delete_eq.
    + now rewrite lookup_delete_ne.
Qed.

Lemma run_keeps_revoked (token : string) (rqs : list api_call) (st : state) :
  Forall (never_issues token) rqs ->
  tokens st !! token = None -> tokens (run st rqs) !! token = None.
Proof.
  unfold run. intros H. revert st.
  induction H as [|rq rqs Hrq _ IH]; intros st Hnone; simpl; [exact Hnone|].
  apply IH. now apply step_keeps_revoked.
Qed.

Lemma profile_unknown_token (authorization token : string) (st : state) :
  bearer authorization = Return token -> tokens st !! token = None ->
  profile authorization st = HTTPException 401 "Invalid token".
Proof. intros Hb Hnone. unfold profile, tokens_get. now rewrite Hb, Hnone. Qed.

Lemma logout_unknown_token (authorization token : string) (st : state) :
  bearer authorization = Return token -> tokens st !! token = None ->
  logout authorization st = (HTTPException 401 "Invalid token", st).
Proof. intros Hb Hnone. unfold logout. now rewrite Hb, Hnone. Qed.

(** C8.  For a header from which the endpoint reads [token]: when [token] is
    not a key of [tokens], [logout] answers 401 [Invalid token] and leaves
    the state alone; when it is a key, [logout] succeeds and deletes exactly
    that key, and from then on, after any further calls that do not hand out
    the same token again, [profile] and [logout] with that token both answer
    401 [Invalid token]. *)
Theorem logout_revokes (authorization token : string) (st : state) :
  bearer authorization = Return token ->
  (tokens st !! token = None ->
   logout authorization st = (HTTPException 401 "Invalid token", st))
  /\ (is_Some (tokens st !! token) ->
      logout authorization st =
        (Return "Logged out successfully", mkState (users st) (delete token (tokens st)))
      /\ forall (later : list api_call) (authorization' : string),
           Forall (never_issues token) later ->
           bearer authorization' = Return token ->
           let st' := run (snd (logout authorization st)) later in
           profile authorization' st' = HTTPException 401 "Invalid token"
           /\ logout authorization' st' = (HTTPException 401 "Invalid token", st')).
Proof.
  intros Hb. split.
  - now apply logout_unknown_token.
  - intros [bound Hsome].
    assert (Hout : logout authorization st =
                   (Return "Logged out successfully",
                    mkState (users st) (delete token (tokens st)))).
    { unfold logout. now rewrite Hb, Hsome. }
    split; [exact Hout|].
    intros later authorization' Hlater Hb'. rewrite Hout. simpl.
    assert (Hgone : tokens (run (mkState (users st) (delete token (tokens st))) later)
                      !! token = None).
    { apply run_keeps_revoked; [exact Hlater|]. simpl. apply lookup_delete_eq. }
    split.
    + now apply profile_unknown_token with token.
    + now apply logout_unknown_token with token.
Qed.

(** A session of [alice]: the token is read from her header and is a key of
    the session map; after the logout, and after [bob] registered and logged
    in with other random bits, the token is refused. *)
Lemma logout_revokes_witness :
  logout alice_header alice_session =
    (Return "Logged out successfully",
     mkState (users alice_session) (delete (token_hex 16 7) (tokens alice_session)))
  /\ profile alice_header
       (run (snd (logout alice_header alice_session)) [Register bob; Login bob 8])
     = HTTPException 401 "Invalid token"
  /\ logout alice_header
       (run (snd (logout alice_header alice_session)) [Register bob; Login bob 8])
     = (HTTPException 401 "Invalid token",
        run (snd (logout alice_header alice_session)) [Register bob; Login bob 8]).
Proof.
  assert (Hb : bearer alice_header = Return (token_hex 16 7)) by (vm_compute; reflexivity).
  destruct (logout_revokes alice_header (token_hex 16 7) alice_session Hb) as [_ Hpresent].
  destruct Hpresent as [Hout Hlater].
  { exists (Some "alice"). vm_compute. reflexivity. }
  split; [exact Hout|].
  apply (Hlater [Register bob; Login bob 8] alice_header); [|exact Hb].
  repeat constructor. simpl. vm_compute. discriminate.
Defined.

(** ** The session invariant *)









(** ** PDF text extraction *)

Lemma lstrip_nil (s : pystr) : lstrip s = [] <-> forallb isspace s = true.
Proof.
  induction s as [|c s IH]; simpl; [tauto|].
  destruct (isspace c); simpl; [exact IH|]. split; discriminate.
Qed.

Lemma lstrip_not_nil (s : pystr) : forallb isspace s = false -> lstrip s <> [].
Proof. intros H Hnil. apply lstrip_nil in Hnil. congruence. Qed.

Lemma lstrip_head (s : pystr) (c : N) (r : pystr) : lstrip s = c :: r -> isspace c = false.
Proof.
  induction s as [|d s IH]; simpl; [discriminate|].
  destruct (isspace d) eqn:Hd; [exact IH|]. now intros [= <- _].
Qed.

(** [full_text.strip()] is truthy exactly when some character is not white
    space. *)
Lemma strip_nonempty (s : pystr) : nonempty (strip s) = negb (forallb isspace s).
Proof.
  unfold strip. destruct (forallb isspace s) eqn:Hall; simpl.
  - apply lstrip_nil in Hall. now rewrite Hall.
  - destruct (lstrip s) as [|c r] eqn:Hl; [now apply lstrip_not_nil in Hall|].
    assert (Hc : isspace c = false) by now apply lstrip_head in Hl.
    assert (Hrev : forallb isspace (rev (c :: r)) = false).
    { simpl. rewrite forallb_app. simpl. rewrite Hc.
      now rewrite andb_false_r. }
    apply lstrip_not_nil in Hrev.
    destruct (lstrip (rev (c :: r))) as [|x xs] eqn:Hx; [contradiction|].
    simpl. now destruct (rev xs ++ [x]) eqn:E; [destruct (rev xs)|].
Qed.

Lemma join_pages_texts (pages : list page) :
  Forall returns_text pages -> join_pages pages = inr (concat (map page_text pages)).
Proof.
  induction 1 as [|p pages Hp _ IH]; simpl; [reflexivity|].
  destruct p as [t|e]; [|contradiction]. now rewrite IH.
Qed.

Lemma join_pages_raises (before after : list page) (e : string) :
  Forall returns_text before -> join_pages (before ++ ExtractRaises e :: after) = inl e.
Proof.
  induction 1 as [|p before Hp _ IH]; simpl; [reflexivity|].
  destruct p as [t|e']; [|contradiction]. now rewrite IH.
Qed.

Lemma join_pages_inl (pages : list page) (e : string) :
  join_pages pages = inl e ->
  exists before after, pages = before ++ ExtractRaises e :: after /\ Forall returns_text before.
Proof.
  induction pages as [|p pages IH]; simpl; [discriminate|].
  destruct p as [t|e'].
  - destruct (join_pages pages) as [e0|r]; [|discriminate].
    intros [= ->]. destruct (IH eq_refl) as (before & after & -> & Hb).
    exists (ExtractText t :: before), after. split; [reflexivity|].
    constructor; [exact I | exact Hb].
  - intros [= ->]. exists [], pages. split; [reflexivity | constructor].
Qed.

Lemma join_pages_skip (before after : list page) (t : option pystr) :
  text_or_empty t = [] ->
  join_pages (before ++ ExtractText t :: after) = join_pages (before ++ after).
Proof.
  intros Ht. induction before as [|p before IH]; simpl.
  - rewrite Ht. now destruct (join_pages after).
  - destruct p; [now rewrite IH | reflexivity].
Qed.

(** C4 (as amended).  [extract_pdf_text] lets no exception escape, and when it
    fails it answers 500 with the detail [Failed to extract PDF: ] followed by
    the message of the exception; that happens exactly when the container
    cannot be opened or when the text extraction of some page raises (the
    first such page decides).  A page whose extraction returns no text
    ([None] or the empty string) changes nothing in the result, and a document
    none of whose pages raises is always answered with a body. *)
Theorem extract_pdf_text_failures (file : pdf) :
  (forall e, extract_pdf_text file <> Uncaught e)
  /\ (forall c d, extract_pdf_text file = HTTPException c d ->
      c = 500%Z
      /\ exists e, d = "Failed to extract PDF: " +:+ e
         /\ (file = Unreadable e
             \/ exists before after,
                  file = PdfReader (before ++ ExtractRaises e :: after)
                  /\ Forall returns_text before))
  /\ (forall e, file = Unreadable e ->
      extract_pdf_text file = HTTPException 500 ("Failed to extract PDF: " +:+ e))
  /\ (forall before after e,
      file = PdfReader (before ++ ExtractRaises e :: after) ->
      Forall returns_text before ->
      extract_pdf_text file = HTTPException 500 ("Failed to extract PDF: " +:+ e))
  /\ (forall before after t,
      file = PdfReader (before ++ ExtractText t :: after) ->
      text_or_empty t = [] ->
      extract_pdf_text file = extract_pdf_text (PdfReader (before ++ after)))
  /\ (forall pages,
      file = PdfReader pages -> Forall returns_text pages ->
      exists body, extract_pdf_text file = Return body).
Proof.
  repeat split.
  - intros e. unfold extract_pdf_text. destruct file as [pages|e0]; [|discriminate].
    destruct (join_pages pages) as [e1|full_text]; [discriminate|].
    destruct (nonempty _); discriminate.
  - unfold extract_pdf_text in H. destruct file as [pages|e0]; [|congruence].
    destruct (join_pages pages) as [e1|full_text]; [congruence|].
    destruct (nonempty _); discriminate.
  - unfold extract_pdf_text in H. destruct file as [pages|e0].
    + destruct (join_pages pages) as [e1|full_text] eqn:Hj.
      * injection H as _ <-. exists e1. split; [reflexivity|]. right.
        destruct (join_pages_inl _ _ Hj) as (before & after & -> & Hb). eauto.
      * destruct (nonempty _); discriminate.
    + injection H as _ <-. exists e0. auto.
  - intros e ->. reflexivity.
  - intros before after e -> Hb. simpl. now rewrite join_pages_raises.
  - intros before after t -> Ht. simpl. now rewrite join_pages_skip.
  - intros pages -> Hp. simpl. rewrite (join_pages_texts _ Hp).
    destruct (nonempty _); eauto.
Qed.

(** C4, the claim as worded fails: the container opens, the first page yields
    text, the extraction of the second page raises, and the whole request is
    answered 500. *)
Lemma extract_pdf_text_page_raises :
  extract_pdf_text (PdfReader [ExtractText (Some (str "Resume")); ExtractRaises "bad page"])
  = HTTPException 500 "Failed to extract PDF: bad page".
Proof. reflexivity. Qed.

(** C5 (as amended).  For a document that opens and none of whose pages
    raises, let [full_text] be the texts of the pages joined in page order
    with no separator, a page without text counting as the empty string.
    When some character of [full_text] is not white space, the answer is
    [full_text] itself with no warning; when [full_text] is empty or all
    white space, the answer is the empty text with the warning. *)
Theorem extract_pdf_text_concatenation (pages : list page) :
  Forall returns_text pages ->
  let full_text := concat (map page_text pages) in
  (forallb isspace full_text = false ->
   extract_pdf_text (PdfReader pages) = Return (mkExtracted full_text None))
  /\ (forallb isspace full_text = true ->
      extract_pdf_text (PdfReader pages)
      = Return (mkExtracted [] (Some "No extractable text found."))).
Proof.
  intros Hp full_text. unfold extract_pdf_text.
  rewrite (join_pages_texts _ Hp), strip_nonempty. fold full_text.
  split; intros ->; reflexivity.
Qed.

(** One page of text and one blank page: the text of the first page, no
    warning.  No page at all: the empty text and the warning. *)
Lemma extract_pdf_text_concatenation_witness :
  extract_pdf_text (PdfReader [ExtractText (Some (str "Jane Doe")); ExtractText None])
  = Return (mkExtracted (str "Jane Doe") None)
  /\ extract_pdf_text (PdfReader [ExtractText (Some []); ExtractText None])
     = Return (mkExtracted [] (Some "No extractable text found.")).
Proof.
  split.
  - apply (extract_pdf_text_concatenation
             [ExtractText (Some (str "Jane Doe")); ExtractText None]).
    + repeat constructor.
    + reflexivity.
  - apply (extract_pdf_text_concatenation [ExtractText (Some []); ExtractText None]).
    + repeat constructor.
    + reflexivity.
Defined.

(** C5, the claim as worded fails on two counts.  The only page holds a single
    space, so the concatenation is that space, yet the text returned is
    empty.  And a document that opens but whose second page raises gets no
    text at all: the request is answered 500. *)
Lemma extract_pdf_text_blank_page :
  join_pages [ExtractText (Some (str " "))] = inr (str " ")
  /\ str " " <> []
  /\ extract_pdf_text (PdfReader [ExtractText (Some (str " "))])
     = Return (mkExtracted [] (Some "No extractable text found."))
  /\ extract_pdf_text (PdfReader [ExtractText (Some (str "Jane Doe")); ExtractRaises "unreadable stream"])
     = HTTPException 500 "Failed to extract PDF: unreadable stream".
Proof. repeat split. discriminate. Qed.

(** ** Resume analysis *)

(** C6.  When the text extracted from the document is empty or all white
    space, [analyze_pdf] returns the fixed message and the list of calls made
    to the chat-completion endpoint is empty, whatever that endpoint would
    have answered. *)
Theorem analyze_pdf_no_text (client : advisory) (pages : list page) (text : pystr) :
  join_pages pages = inr text ->
  forallb isspace text = true ->
  analyze_pdf client (PdfReader pages)
  = (Return (str "No extractable text found in the PDF."), []).
Proof.
  intros Hj Hblank. unfold analyze_pdf.
  now rewrite Hj, strip_nonempty, Hblank.
Qed.

(** A scanned page and a page of line breaks, with an endpoint that would
    raise if it were called. *)
Lemma analyze_pdf_no_text_witness :
  analyze_pdf (const_advisory (CreateRaises "unreachable"))
    (PdfReader [ExtractText None; ExtractText (Some [10; 10; 32]%N)])
  = (Return (str "No extractable text found in the PDF."), []).
Proof.
  apply (analyze_pdf_no_text _ _ [10; 10; 32]%N); reflexivity.
Defined.

(** With text on a page, the endpoint is called once, with the recruiter
    instruction and the text. *)
Example analyze_pdf_calls_once :
  analyze_pdf (const_advisory (Choices [Some (str " Looks good. ")]))
    (PdfReader [ExtractText (Some (str "Jane Doe"))])
  = (Return (str "Looks good."),
     [("deepseek-chat",
       [mkMessage "system"
          (str "You are a recruiter AI assistant. Provide feedback on the resume text.");
        mkMessage "user" (str "Jane Doe")])]).
Proof. reflexivity. Qed.

(** ** Job search, normalised *)

Ltac case_field items name :=
  let x := fresh "x" in
  let E := fresh "E" in
  destruct (dict_get name items) as [x|] eqn:E;
  [destruct x; simpl; try discriminate|].

Lemma normalize_listing (job : json) (listing : dict json) :
  normalize job = Ok listing -> listing_of job listing.
Proof.
  destruct job as [| | | | |items]; try discriminate.
  unfold normalize. simpl.
  case_field items "job_required_experience"; simpl;
    (case_field items "job_highlights"; simpl);
    intros [= <-]; exists items; (split; [reflexivity|]); (split; [reflexivity|]);
    (split; [|split]);
    try (intros key field placeholder Hin Hnone; simpl in Hin;
         repeat (destruct Hin as [[= <- <- <-]|Hin];
                 [first [rewrite Hnone; reflexivity | congruence | reflexivity]|]);
         contradiction);
    try (intros inner Hobj Hnone; simpl;
         first [ congruence
               | match goal with
                 | H1 : dict_get ?f items = Some (JObj ?a) |- _ =>
                     rewrite H1 in Hobj; injection Hobj as <-; rewrite Hnone; reflexivity
                 end ]).
Qed.

Lemma py_map_Forall2 {A B : Type} (f : A -> py B) (l : list A) (rs : list B) :
  py_map f l = Ok rs -> Forall2 (fun a b => f a = Ok b) l rs.
Proof.
  revert rs. induction l as [|a l IH]; simpl; intros rs.
  - intros [= <-]. constructor.
  - destruct (f a) as [b|e] eqn:Hfa; simpl; [|discriminate].
    destruct (py_map f l) as [bs|e]; simpl; [|discriminate].
    intros [= <-]. constructor; [exact Hfa | now apply IH].
Qed.

(** C2 (as amended).  When [get_jobs] returns, its list has one dict per
    provider record, in the provider's order; each provider record is an
    object, and its dict has exactly the keys [title], [company], [salary],
    [max_salary], [employment_type], [location], [country], [description],
    [requirements], [highlights], [logo], [remote], [date_posted] and
    [apply_link], in that order; and for every key whose provider field is
    absent from the record the value is the placeholder: [N/A], the empty
    list for [highlights], null for [logo], false for [remote].  For
    [requirements] and [highlights] the field is absent also when the object
    [job_required_experience] or [job_highlights] is there and has no
    [required_qualification] or [Qualifications]: the placeholder stands
    then too. *)
Theorem get_jobs_listing_shape (env_key : option string) (requests_get : http_client)
    (query : string) (page : Z) (results : list (dict json)) :
  fst (get_jobs env_key requests_get query page) = Return results ->
  exists jobs,
    (do fetched <- fst (fetch_jobs_from_jsearch env_key requests_get query page) in
     iterate fetched) = Ok jobs
    /\ Forall2 listing_of jobs results.
Proof.
  unfold get_jobs, get_jobs_body.
  destruct (fetch_jobs_from_jsearch env_key requests_get query page) as [fetched sent].
  simpl. destruct fetched as [j|e]; simpl.
  - destruct (iterate j) as [jobs|e]; simpl.
    + destruct (py_map normalize jobs) as [rs|e] eqn:Hmap; simpl.
      * intros [= <-]. exists jobs. split; [reflexivity|].
        apply py_map_Forall2 in Hmap.
        induction Hmap as [|job r jobs rs Hn _ IH]; constructor; auto.
        now apply normalize_listing.
      * destruct (is_HTTPError e); discriminate.
    + destruct (is_HTTPError e); discriminate.
  - destruct (is_HTTPError e); discriminate.
Qed.

(** A provider answer with two records: one lacks [employer_logo] and
    [job_is_remote]; the other has its nested objects without the keys read
    from them. *)
Lemma get_jobs_listing_shape_witness :
  fst (get_jobs (Some "k3y") two_record_provider "python" 1)
  = Return [sample_listing; nested_listing]
  /\ exists jobs,
       (do fetched <- fst (fetch_jobs_from_jsearch (Some "k3y") two_record_provider "python" 1) in
        iterate fetched) = Ok jobs
       /\ Forall2 listing_of jobs [sample_listing; nested_listing].
Proof.
  assert (H : fst (get_jobs (Some "k3y") two_record_provider "python" 1)
              = Return [sample_listing; nested_listing])
    by reflexivity.
  split; [exact H|].
  exact (get_jobs_listing_shape (Some "k3y") two_record_provider "python" 1
           [sample_listing; nested_listing] H).
Defined.

Example sample_listing_defaults :
  dict_get "logo" sample_listing = Some JNull
  /\ dict_get "remote" sample_listing = Some (JBool false).
Proof. split; reflexivity. Qed.

(** C2, the claim as worded fails: the dict built for a record has the keys
    [salary] and [max_salary]; the keys [salary_min] and [salary_max] of the
    specification are not in it. *)
Lemma get_jobs_salary_keys :
  fst (get_jobs (Some "k3y") sample_provider "python" 1) = Return [sample_listing]
  /\ map fst sample_listing <> spec_listing_keys
  /\ dict_get "salary_min" sample_listing = None
  /\ dict_get "salary_max" sample_listing = None
  /\ dict_get "salary" sample_listing = Some (JStr "N/A")
  /\ dict_get "max_salary" sample_listing = Some (JStr "N/A").
Proof. repeat split; try reflexivity. discriminate. Qed.

(** *** Errors *)

Lemma get_raises (v : json) (key : string) (default : json) (e : exn) :
  get v key default = Raise e -> e = AttributeError.
Proof. destruct v; simpl; congruence. Qed.

Lemma iterate_raises (jobs : json) (e : exn) : iterate jobs = Raise e -> e = TypeError.
Proof. destruct jobs; simpl; congruence. Qed.

Lemma normalize_raises (job : json) (e : exn) : normalize job = Raise e -> e = AttributeError.
Proof.
  unfold normalize. destruct job as [| | | | |items]; simpl; try congruence.
  destruct (dict_get "job_required_experience" items) as [[]|]; simpl; try congruence;
    destruct (dict_get "job_highlights" items) as [[]|]; simpl; congruence.
Qed.

Lemma py_map_raises {A B : Type} (f : A -> py B) (P : exn -> Prop) (l : list A) (e : exn) :
  (forall a e', f a = Raise e' -> P e') -> py_map f l = Raise e -> P e.
Proof.
  intros Hf. induction l as [|a l IH]; simpl; [discriminate|].
  destruct (f a) as [b|e'] eqn:Hfa; simpl.
  - destruct (py_map f l) as [bs|e'']; simpl; [discriminate|].
    intros [= <-]. now apply IH.
  - intros [= <-]. now apply Hf with a.
Qed.

Lemma raise_for_status_raises (status : Z) :
  (400 <= status < 600)%Z -> raise_for_status status = Raise HTTPError.
Proof.
  intros H. unfold raise_for_status.
  destruct (Z.leb_spec 400 status), (Z.ltb_spec status 600); simpl; try lia. reflexivity.
Qed.

Lemma raise_for_status_passes (status : Z) :
  ~ (400 <= status < 600)%Z -> raise_for_status status = Ok tt.
Proof.
  intros H. unfold raise_for_status.
  destruct (Z.leb_spec 400 status), (Z.ltb_spec status 600); simpl; try lia; reflexivity.
Qed.

(** What the [try] block raises is [HTTPError] exactly on a provider HTTP
    error. *)
Lemma get_jobs_body_HTTPError (env_key : option string) (requests_get : http_client)
    (query : string) (page : Z) :
  fst (get_jobs_body env_key requests_get query page) = Raise HTTPError
  <-> provider_http_error (requests_get (jsearch_request env_key query page)).
Proof.
  unfold get_jobs_body, fetch_jobs_from_jsearch, provider_http_error. simpl.
  destruct (requests_get _) as [status body|e]; simpl.
  - destruct (Z_le_dec 400 status) as [Hlo|Hlo], (Z_lt_dec status 600) as [Hhi|Hhi].
    1: { rewrite raise_for_status_raises by lia. simpl.
         split; [intros _; right; eauto | reflexivity]. }
    all: rewrite raise_for_status_passes by lia; simpl;
      (split; [|intros [H|(s & b & [= <- <-] & H)]; [discriminate | lia]]);
      intros H; exfalso;
      destruct body as [j|]; simpl in H; [|discriminate];
      destruct (get j "data" (JArr [])) as [jobs|e] eqn:Hget; simpl in H;
      [|apply get_raises in Hget; congruence];
      destruct (iterate jobs) as [items|e] eqn:Hit; simpl in H;
      [|apply iterate_raises in Hit; congruence];
      apply (py_map_raises normalize (fun e => e = AttributeError)) in H;
      [discriminate | exact normalize_raises].
  - split.
    + intros [= ->]. now left.
    + intros [[= ->]|(s & b & [=] & _)]. reflexivity.
Qed.

(** C3 (as amended).  [get_jobs] lets no exception escape.  It answers 502
    [External API error] exactly when the provider answered with an HTTP
    error, that is when [requests.get] raised [HTTPError] or the response
    status is between 400 and 599; every other failure of the fetch or of the
    normalisation, a network failure included, is answered 500
    [Internal server error]. *)
Theorem get_jobs_error_mapping (env_key : option string) (requests_get : http_client)
    (query : string) (page : Z) :
  let provider := requests_get (jsearch_request env_key query page) in
  let answer := fst (get_jobs env_key requests_get query page) in
  (forall e, answer <> Uncaught e)
  /\ (provider_http_error provider -> answer = HTTPException 502 "External API error")
  /\ (forall e, provider = Raises e -> e <> HTTPError ->
      answer = HTTPException 500 "Internal server error")
  /\ (forall e, fst (get_jobs_body env_key requests_get query page) = Raise e ->
      e <> HTTPError -> answer = HTTPException 500 "Internal server error")
  /\ (forall c d, answer = HTTPException c d ->
      (c = 502%Z /\ d = "External API error" /\ provider_http_error provider)
      \/ (c = 500%Z /\ d = "Internal server error" /\ ~ provider_http_error provider)).
Proof.
  intros provider answer.
  pose proof (get_jobs_body_HTTPError env_key requests_get query page) as Hiff.
  fold provider in Hiff.
  assert (Hans : answer =
    match fst (get_jobs_body env_key requests_get query page) with
    | Ok results => Return results
    | Raise e => if is_HTTPError e then HTTPException 502 "External API error"
                 else HTTPException 500 "Internal server error"
    end).
  { unfold answer, get_jobs.
    now destruct (get_jobs_body env_key requests_get query page). }
  assert (Hbody : forall e, provider = Raises e ->
            fst (get_jobs_body env_key requests_get query page) = Raise e).
  { intros e He. unfold get_jobs_body, fetch_jobs_from_jsearch. simpl.
    fold provider. now rewrite He. }
  clearbody answer. subst answer.
  repeat split.
  - intros e. destruct (fst (get_jobs_body _ _ _ _)) as [r|e']; [discriminate|].
    destruct (is_HTTPError e'); discriminate.
  - intros Hp. apply Hiff in Hp. now rewrite Hp.
  - intros e He Hne. rewrite (Hbody e He). destruct e; simpl; congruence.
  - intros e He Hne. rewrite He. destruct e; simpl; congruence.
  - intros c d. destruct (fst (get_jobs_body _ _ _ _)) as [r|e] eqn:Hb; [discriminate|].
    destruct e; simpl; intros [= <- <-];
      first [ left; repeat split; now apply Hiff
            | right; repeat split; intros Hp; apply Hiff in Hp; discriminate ].
Qed.

(** C3, the claim as worded fails on two counts: a network failure is
    answered 500 and not 502; and without the provider credential the request
    is still sent (with no key in the header) and the answer is the
    provider's, here an empty result list. *)
Lemma get_jobs_network_failure_and_missing_key :
  get_jobs (Some "k3y") (const_client (Raises ConnectionError)) "python" 1
  = (HTTPException 500 "Internal server error", [jsearch_request (Some "k3y") "python" 1])
  /\ get_jobs None (const_client (Response 200 (Some (JObj [("data", JArr [])])))) "python" 1
     = (Return [], [jsearch_request None "python" 1])
  /\ dict_get "X-RapidAPI-Key" (headers (jsearch_request None "python" 1)) = Some None.
Proof. repeat split. Qed.

(** The pass-through endpoint does test the credential, and sends nothing
    without it. *)
Lemma search_jobs_missing_key (requests_get : http_client) (render : renderer)
    (query : string) (location country employment_type : option string) :
  search_jobs None requests_get render query location country employment_type
  = (HTTPException 500 "Missing API key", []).
Proof. reflexivity. Qed.

Example search_jobs_query :
  snd (search_jobs (Some "k3y") (const_client (Response 200 (Some (JObj []))))
         (const_renderer (Some "{}"))
         "python" (Some "Leeds") None (Some "FULLTIME"))
  = [mkRequest "https://jsearch.p.rapidapi.com/search"
       [("X-RapidAPI-Key", Some "k3y"); ("X-RapidAPI-Host", Some "jsearch.p.rapidapi.com")]
       [("query", "python Leeds"); ("page", "1"); ("num_pages", "1");
        ("date_posted", "week"); ("job_city", "Leeds"); ("employment_types", "FULLTIME")]].
Proof. reflexivity. Qed.

Example get_jobs_503 :
  fst (get_jobs (Some "k3y") (const_client (Response 503 None)) "python" 1)
  = HTTPException 502 "External API error".
Proof. reflexivity. Qed.

Example get_jobs_malformed_json :
  fst (get_jobs (Some "k3y") (const_client (Response 200 None)) "python" 1)
  = HTTPException 500 "Internal server error".
Proof. reflexivity. Qed.

Example get_jobs_null_experience :
  fst (get_jobs (Some "k3y")
         (const_client (Response 200 (Some (JObj [("data",
            JArr [JObj [("job_required_experience", JNull)]])]))))
         "python" 1)
  = HTTPException 500 "Internal server error".
Proof. reflexivity. Qed.

(* ===================================================================== *)
(** * Part III: further properties of the endpoints                        *)
(* ===================================================================== *)

(** ** The credential store over time *)

Lemma dict_get_None_notin {V : Type} (k : string) (d : dict V) :
  dict_get k d = None -> ~ In k (map fst d).
Proof.
  induction d as [|[k' v'] d IH]; simpl; [tauto|].
  destruct (String.eqb_spec k' k) as [->|Hne]; [discriminate|].
  intros H [Heq|Hin]; [congruence | now apply IH].
Qed.

Lemma dict_get_app_new {V : Type} (k : string) (v : V) (d : dict V) :
  dict_get k d = None -> dict_get k (d ++ [(k, v)]) = Some v.
Proof.
  induction d as [|[k' v'] d IH]; simpl.
  - now rewrite String.eqb_refl.
  - destruct (String.eqb k' k); [discriminate | exact IH].
Qed.

Lemma dict_get_app_old {V : Type} (k k' : string) (v r : V) (d : dict V) :
  dict_get k d = Some r -> dict_get k (d ++ [(k', v)]) = Some r.
Proof.
  induction d as [|[k0 v0] d IH]; simpl; [discriminate|].
  destruct (String.eqb k0 k); [auto | exact IH].
Qed.

(** The two ways [register] can end. *)
Lemma register_cases (user : UserIn) (st : state) :
  (exists detail, register user st = (HTTPException 400 detail, st))
  \/ (dict_get (username user) (users st) = None
      /\ (forall e, email user = Some e -> e <> "" -> ~ email_taken e (users st))
      /\ register user st =
           (Return "User registered",
            mkState (users st ++ [(username user,
                                   mkRecord (hash_password (password user)) (email user))])
                    (tokens st))).
Proof.
  unfold register. destruct (dict_mem (username user) (users st)) eqn:Hmem; [eauto|].
  apply dict_mem_false in Hmem.
  destruct (truthy_opt (email user) && existsb _ (users st)) eqn:Hdup; [eauto|].
  right. rewrite (dict_set_fresh _ _ _ Hmem). repeat split; [exact Hmem|].
  intros e He Hne Htaken. rewrite He in Hdup. simpl in Hdup.
  apply truthy_true in Hne. apply existsb_email_taken in Htaken.
  rewrite Hne, Htaken in Hdup. discriminate.
Qed.

Lemma login_users (user : UserIn) (entropy : Z) (st : state) :
  users (snd (login user entropy st)) = users st.
Proof.
  destruct (login_cases user entropy st) as [->|(r & k & _ & _ & _ & _ & ->)]; reflexivity.
Qed.

Lemma logout_users (authorization : string) (st : state) :
  users (snd (logout authorization st)) = users st.
Proof.
  unfold logout. destruct (bearer authorization); try reflexivity.
  destruct (tokens st !! body); reflexivity.
Qed.

Lemma step_keeps_records (st : state) (rq : api_call) (k : string) (r : user_record) :
  dict_get k (users st) = Some r -> dict_get k (users (step st rq)) = Some r.
Proof.
  intros Hget. destruct rq as [user|user entropy|a|a]; simpl.
  - destruct (register_cases user st) as [[d ->]|(_ & _ & ->)]; simpl; [exact Hget|].
    now apply dict_get_app_old.
  - now rewrite login_users.
  - exact Hget.
  - now rewrite logout_users.
Qed.

(** X1.  A record of [users] is never changed and never removed: whatever
    calls follow, the same username still holds the same digest and email. *)
Theorem run_keeps_records (st : state) (rqs : list api_call) (k : string) (r : user_record) :
  dict_get k (users st) = Some r -> dict_get k (users (run st rqs)) = Some r.
Proof.
  unfold run. revert st. induction rqs as [|rq rqs IH]; intros st Hget; simpl; [exact Hget|].
  apply IH. now apply step_keeps_records.
Qed.

(** [alice] stays as she registered although [bob] registers, somebody tries
    to register her username again with another password, and she logs in
    and out. *)
Lemma run_keeps_records_witness :
  dict_get "alice"
    (users (run (run initial [Register alice])
              [Register bob; Register (mkUserIn "alice" "other" (Some "a@example.org"));
               Login alice 3; Logout ("Bearer " +:+ token_hex 16 3)]))
  = Some (mkRecord (hash_password "pw") None).
Proof.
  apply (run_keeps_records (run initial [Register alice])).
  vm_compute. reflexivity.
Defined.

Lemma stored_emails_app (us vs : dict user_record) :
  stored_emails (us ++ vs) = stored_emails us ++ stored_emails vs.
Proof. unfold stored_emails. apply flat_map_app. Qed.

Lemma stored_emails_taken (e : string) (us : dict user_record) :
  In e (stored_emails us) -> email_taken e us.
Proof.
  unfold stored_emails. intros H. apply List.in_flat_map in H as [kv [Hin He]].
  exists kv. split; [exact Hin|].
  destruct (r_email (snd kv)) as [e'|]; [|contradiction].
  destruct (truthy e'); [|contradiction].
  destruct He as [->|[]]. reflexivity.
Qed.

Lemma users_unique_initial : users_unique initial.
Proof. split; constructor. Qed.

Lemma users_unique_step (st : state) (rq : api_call) :
  users_unique st -> users_unique (step st rq).
Proof.
  intros [Hkeys Hmails]. destruct rq as [user|user entropy|a|a]; simpl.
  - destruct (register_cases user st) as [[d ->]|(Hfresh & Hfree & ->)]; simpl;
      [now split|].
    split; simpl.
    + rewrite List.map_app. simpl. apply NoDup_app. split; [exact Hkeys|]. split.
      * intros k Hin Hnew. apply list_elem_of_In in Hin, Hnew.
        destruct Hnew as [<-|[]]. now apply dict_get_None_notin in Hfresh.
      * apply NoDup_singleton.
    + rewrite stored_emails_app. apply NoDup_app. split; [exact Hmails|]. split.
      * intros e Hin Hnew. apply list_elem_of_In in Hin, Hnew. simpl in Hnew.
        destruct (email user) as [e'|] eqn:He; [|destruct Hnew].
        destruct (truthy e') eqn:Ht; [|destruct Hnew].
        simpl in Hnew. destruct Hnew as [<-|[]].
        apply truthy_true in Ht. apply (Hfree e' eq_refl Ht).
        now apply stored_emails_taken.
      * simpl. destruct (email user) as [e'|]; [|constructor].
        destruct (truthy e'); simpl; [apply NoDup_singleton | constructor].
  - unfold users_unique. rewrite login_users. now split.
  - now split.
  - unfold users_unique. rewrite logout_users. now split.
Qed.

Lemma users_unique_run (rqs : list api_call) (st : state) :
  users_unique st -> users_unique (run st rqs).
Proof.
  unfold run. revert st. induction rqs as [|rq rqs IH]; intros st H; simpl; [exact H|].
  apply IH. now apply users_unique_step.
Qed.

(** X2.  Usernames are unique and non-empty emails are unique, in the empty
    store, after every call, and so in every state the server can reach. *)
Theorem users_unique_preserved :
  users_unique initial
  /\ (forall st rq, users_unique st -> users_unique (step st rq))
  /\ (forall rqs, users_unique (run initial rqs)).
Proof.
  split; [exact users_unique_initial|].
  split; [exact users_unique_step|].
  intros rqs. apply users_unique_run, users_unique_initial.
Qed.

(** ** Login, by username and by email *)

Lemma stored_emails_In (kv : string * user_record) (e : string) (us : dict user_record) :
  In kv us -> r_email (snd kv) = Some e -> e <> "" -> In e (stored_emails us).
Proof.
  intros Hin He Hne. unfold stored_emails. apply List.in_flat_map.
  exists kv. split; [exact Hin|]. rewrite He.
  apply truthy_true in Hne. rewrite Hne. now left.
Qed.

(** With unique emails, a non-empty email names one item of [users]. *)
Lemma unique_email_entry (us : dict user_record) (kv1 kv2 : string * user_record) (e : string) :
  NoDup (stored_emails us) ->
  In kv1 us -> In kv2 us ->
  r_email (snd kv1) = Some e -> r_email (snd kv2) = Some e -> e <> "" ->
  kv1 = kv2.
Proof.
  intros Hnd H1 H2 He1 He2 Hne.
  induction us as [|kv us IH]; [destruct H1|].
  change (kv :: us) with ([kv] ++ us) in Hnd. rewrite stored_emails_app in Hnd.
  apply NoDup_app in Hnd as (_ & Hdisj & Hus).
  assert (Hhead : forall kv', kv = kv' -> r_email (snd kv') = Some e ->
                              In e (stored_emails [kv])).
  { intros kv' <- He. apply stored_emails_In with kv; [now left | exact He | exact Hne]. }
  destruct H1 as [H1|H1], H2 as [H2|H2].
  - congruence.
  - exfalso. apply (Hdisj e).
    + apply list_elem_of_In. now apply Hhead with kv1.
    + apply list_elem_of_In. now apply stored_emails_In with kv2.
  - exfalso. apply (Hdisj e).
    + apply list_elem_of_In. now apply Hhead with kv2.
    + apply list_elem_of_In. now apply stored_emails_In with kv1.
  - now apply IH.
Qed.

(** With unique emails, the reverse lookup of a record that carries a
    non-empty email finds the key the record is stored under. *)
Lemma first_key_of_unique (st : state) (k : string) (record : user_record) (e : string) :
  users_unique st ->
  In (k, record) (users st) -> r_email record = Some e -> e <> "" ->
  first_key_of record (users st) = Some k.
Proof.
  intros [_ Hmails] Hin He Hne.
  destruct (first_key_of_In _ _ _ Hin) as (k' & Hk' & Hin').
  rewrite Hk'. f_equal.
  assert (Heq : (k', record) = (k, record))
    by now apply (unique_email_entry (users st) _ _ e Hmails Hin' Hin).
  congruence.
Qed.

Lemma profile_after_login (st : state) (record : user_record) (k : string) (entropy : Z) :
  dict_get k (users st) = Some record -> k <> "" ->
  profile ("Bearer " +:+ token_hex 16 entropy)
    (mkState (users st) (<[token_hex 16 entropy := Some k]> (tokens st)))
  = Return (k, r_email record).
Proof.
  intros Hget Hne. unfold profile, tokens_get. rewrite bearer_token_hex. simpl.
  rewrite lookup_insert_eq. apply truthy_true in Hne. rewrite Hne. simpl.
  now rewrite Hget.
Qed.

(** X3.  In a state with unique usernames and emails (every reachable state
    is one), a user stored with a non-empty email and a non-empty username
    who logs in with the username and the password gets a token with which
    [profile] answers that username and that email: the reverse lookup of
    [login] cannot land on another account. *)
Theorem login_profile_with_email (st : state) (user : UserIn) (entropy : Z)
    (record : user_record) (e : string) :
  users_unique st ->
  dict_get (username user) (users st) = Some record ->
  r_password record = hash_password (password user) ->
  r_email record = Some e -> e <> "" -> username user <> "" ->
  exists st',
    login user entropy st = (Return (token_hex 16 entropy), st')
    /\ profile ("Bearer " +:+ token_hex 16 entropy) st' = Return (username user, Some e).
Proof.
  intros Huniq Hget Hpw He Hne Hu.
  pose proof (first_key_of_unique st _ _ e Huniq (dict_get_In _ _ _ Hget) He Hne) as Hfirst.
  eexists. split.
  - unfold login, lookup_record. rewrite Hget, Hpw, String.eqb_refl, Hfirst. simpl.
    reflexivity.
  - rewrite <- He. now apply profile_after_login.
Qed.

(** Two users with the same password, told apart by their emails. *)
Lemma login_profile_with_email_witness :
  exists st',
    login (mkUserIn "erin" "pw" None) 9
      (run initial [Register (mkUserIn "dan" "pw" (Some "dan@example.org"));
                    Register (mkUserIn "erin" "pw" (Some "erin@example.org"))])
    = (Return (token_hex 16 9), st')
    /\ profile ("Bearer " +:+ token_hex 16 9) st' = Return ("erin", Some "erin@example.org").
Proof.
  apply (login_profile_with_email
           (run initial [Register (mkUserIn "dan" "pw" (Some "dan@example.org"));
                         Register (mkUserIn "erin" "pw" (Some "erin@example.org"))])
           (mkUserIn "erin" "pw" None) 9
           (mkRecord (hash_password "pw") (Some "erin@example.org")) "erin@example.org").
  - split; apply (bool_decide_unpack _); vm_compute; exact I.
  - vm_compute. reflexivity.
  - reflexivity.
  - reflexivity.
  - discriminate.
  - discriminate.
Defined.

(** X4.  In a state with unique usernames and emails, logging in with a
    stored non-empty email that is nobody's username, and with the password
    of the account that carries it, succeeds, and the token is bound to the
    username of that account.  With that token [profile] answers that
    username and the email when the username is not empty; when the account
    was registered with the empty username, [profile] answers 401. *)
Theorem login_by_email (st : state) (user : UserIn) (entropy : Z)
    (k : string) (record : user_record) :
  users_unique st ->
  dict_get k (users st) = Some record ->
  r_email record = Some (username user) -> username user <> "" ->
  dict_get (username user) (users st) = None ->
  r_password record = hash_password (password user) ->
  exists st',
    login user entropy st = (Return (token_hex 16 entropy), st')
    /\ tokens st' !! token_hex 16 entropy = Some (Some k)
    /\ (k <> "" ->
        profile ("Bearer " +:+ token_hex 16 entropy) st' = Return (k, Some (username user)))
    /\ (k = "" ->
        profile ("Bearer " +:+ token_hex 16 entropy) st' = HTTPException 401 "Invalid token").
Proof.
  intros Huniq Hget He Hne Hnouser Hpw.
  pose proof (dict_get_In _ _ _ Hget) as Hin.
  assert (Hfind : List.find (fun kv => bool_decide (r_email (snd kv) = Some (username user)))
                    (users st) = Some (k, record)).
  { destruct (List.find _ (users st)) as [kv|] eqn:Hf.
    - apply find_some_In in Hf as [Hin' Hmail]. apply bool_decide_eq_true in Hmail.
      f_equal. destruct Huniq as [_ Hmails].
      now apply (unique_email_entry (users st) kv (k, record) (username user)).
    - exfalso. apply (List.find_none _ _ Hf) in Hin. simpl in Hin.
      now rewrite bool_decide_eq_false in Hin. }
  pose proof (first_key_of_unique st _ _ _ Huniq Hin He Hne) as Hfirst.
  exists (mkState (users st) (<[token_hex 16 entropy := Some k]> (tokens st))).
  split; [|split; [|split]].
  - unfold login, lookup_record. rewrite Hnouser, Hfind. simpl.
    rewrite Hpw, String.eqb_refl, Hfirst. simpl. reflexivity.
  - simpl. apply lookup_insert_eq.
  - intros Hk. rewrite <- He. now apply profile_after_login.
  - intros ->. unfold profile, tokens_get. rewrite bearer_token_hex. simpl.
    now rewrite lookup_insert_eq.
Qed.

(** [erin] logs in with her email.  So does the account registered with the
    empty username: the login succeeds and [profile] refuses the token. *)
Lemma login_by_email_witness :
  (exists st',
     login (mkUserIn "erin@example.org" "pw2" None) 9
       (run initial [Register (mkUserIn "dan" "pw" (Some "dan@example.org"));
                     Register (mkUserIn "erin" "pw2" (Some "erin@example.org"))])
     = (Return (token_hex 16 9), st')
     /\ profile ("Bearer " +:+ token_hex 16 9) st'
        = Return ("erin", Some "erin@example.org"))
  /\ (exists st',
        login (mkUserIn "e@x.org" "pw" None) 9
          (run initial [Register (mkUserIn "" "pw" (Some "e@x.org"))])
        = (Return (token_hex 16 9), st')
        /\ profile ("Bearer " +:+ token_hex 16 9) st' = HTTPException 401 "Invalid token").
Proof.
  split.
  - destruct (login_by_email
                (run initial [Register (mkUserIn "dan" "pw" (Some "dan@example.org"));
                              Register (mkUserIn "erin" "pw2" (Some "erin@example.org"))])
                (mkUserIn "erin@example.org" "pw2" None) 9 "erin"
                (mkRecord (hash_password "pw2") (Some "erin@example.org")))
      as (st' & Hlogin & _ & Hprofile & _).
    + split; apply (bool_decide_unpack _); vm_compute; exact I.
    + vm_compute. reflexivity.
    + reflexivity.
    + discriminate.
    + vm_compute. reflexivity.
    + reflexivity.
    + exists st'. split; [exact Hlogin|]. apply Hprofile. discriminate.
  - destruct (login_by_email
                (run initial [Register (mkUserIn "" "pw" (Some "e@x.org"))])
                (mkUserIn "e@x.org" "pw" None) 9 ""
                (mkRecord (hash_password "pw") (Some "e@x.org")))
      as (st' & Hlogin & _ & _ & Hrefused).
    + split; apply (bool_decide_unpack _); vm_compute; exact I.
    + vm_compute. reflexivity.
    + reflexivity.
    + discriminate.
    + vm_compute. reflexivity.
    + reflexivity.
    + exists st'. split; [exact Hlogin|]. now apply Hrefused.
Defined.

(** X5.  [login] answers 401 and leaves the state alone when the identifier is
    a username stored with another digest, even if the identifier is also the
    email of an account with the right password (a username match is final);
    and when the identifier is neither a username nor a stored email. *)
Theorem login_refused (user : UserIn) (entropy : Z) (st : state) :
  (forall record,
     dict_get (username user) (users st) = Some record ->
     r_password record <> hash_password (password user) ->
     login user entropy st = (HTTPException 401 "Invalid username/email or password", st))
  /\ (dict_get (username user) (users st) = None ->
      ~ email_taken (username user) (users st) ->
      login user entropy st = (HTTPException 401 "Invalid username/email or password", st)).
Proof.
  split.
  - intros record Hget Hpw. unfold login, lookup_record. rewrite Hget.
    destruct (String.eqb_spec (r_password record) (hash_password (password user)));
      [contradiction | reflexivity].
  - intros Hget Hfree. unfold login, lookup_record. rewrite Hget.
    destruct (List.find _ (users st)) as [kv|] eqn:Hf; [|reflexivity].
    exfalso. apply Hfree. apply find_some_In in Hf as [Hin Hmail].
    apply bool_decide_eq_true in Hmail. now exists kv.
Qed.

(** The username [x@example.org] was taken by somebody with the password
    [pw1]; another account has that address as its email and the password
    [pw2].  Logging in with the address and [pw2] is refused. *)
Lemma login_refused_witness :
  login (mkUserIn "x@example.org" "pw2" None) 5
    (run initial [Register (mkUserIn "x@example.org" "pw1" None);
                  Register (mkUserIn "xavier" "pw2" (Some "x@example.org"))])
  = (HTTPException 401 "Invalid username/email or password",
     run initial [Register (mkUserIn "x@example.org" "pw1" None);
                  Register (mkUserIn "xavier" "pw2" (Some "x@example.org"))]).
Proof.
  destruct (login_refused (mkUserIn "x@example.org" "pw2" None) 5
              (run initial [Register (mkUserIn "x@example.org" "pw1" None);
                            Register (mkUserIn "xavier" "pw2" (Some "x@example.org"))]))
    as [Hwrong _].
  apply (Hwrong (mkRecord (hash_password "pw1") None)).
  - vm_compute. reflexivity.
  - vm_compute. discriminate.
Defined.

(** X6.  Right after a successful [register], [login] with the same username
    and password succeeds, whatever the username: it returns the token made
    of the random bits, bound to a user whose stored record equals the new
    one. *)
Theorem register_then_login (user : UserIn) (entropy : Z) (st : state) :
  fst (register user st) = Return "User registered" ->
  let st' := snd (register user st) in
  let record := mkRecord (hash_password (password user)) (email user) in
  dict_get (username user) (users st') = Some record
  /\ fst (login user entropy st') = Return (token_hex 16 entropy)
  /\ exists k, tokens (snd (login user entropy st')) !! token_hex 16 entropy = Some (Some k)
               /\ In (k, record) (users st').
Proof.
  intros Hreg st' record. subst st' record.
  destruct (register_cases user st) as [[d Hfail]|(Hfresh & _ & Hok)];
    [rewrite Hfail in Hreg; discriminate|].
  rewrite Hok. simpl.
  pose proof (dict_get_app_new (username user)
                (mkRecord (hash_password (password user)) (email user))
                (users st) Hfresh) as Hget.
  split; [exact Hget|].
  set (st1 := mkState _ _).
  assert (Hlog : login user entropy st1 =
            (Return (token_hex 16 entropy),
             mkState (users st1)
               (<[token_hex 16 entropy :=
                    first_key_of (mkRecord (hash_password (password user)) (email user))
                      (users st1)]> (tokens st1)))).
  { unfold login, lookup_record. unfold st1 at 1. simpl. rewrite Hget. simpl.
    now rewrite String.eqb_refl. }
  rewrite Hlog. simpl. split; [reflexivity|].
  destruct (first_key_of_In _ _ _ (dict_get_In _ _ _ Hget)) as (k & Hk & Hin).
  exists k. split; [|exact Hin].
  rewrite lookup_insert_eq. now rewrite Hk.
Qed.

Lemma register_then_login_witness :
  dict_get "" (users (snd (register (mkUserIn "" "pw" None) initial)))
  = Some (mkRecord (hash_password "pw") None)
  /\ fst (login (mkUserIn "" "pw" None) 1 (snd (register (mkUserIn "" "pw" None) initial)))
     = Return (token_hex 16 1)
  /\ exists k,
       tokens (snd (login (mkUserIn "" "pw" None) 1
                      (snd (register (mkUserIn "" "pw" None) initial))))
         !! token_hex 16 1 = Some (Some k)
       /\ In (k, mkRecord (hash_password "pw") None)
            (users (snd (register (mkUserIn "" "pw" None) initial))).
Proof.
  apply (register_then_login (mkUserIn "" "pw" None) 1 initial).
  vm_compute. reflexivity.
Defined.

(** X7.  [login] never touches [users]; it leaves every token other than the
    one it hands out bound as it was; and when it fails the status is 401 and
    the whole state is as before. *)
Theorem login_frame (user : UserIn) (entropy : Z) (st : state) :
  users (snd (login user entropy st)) = users st
  /\ (forall t, t <> token_hex 16 entropy ->
      tokens (snd (login user entropy st)) !! t = tokens st !! t)
  /\ (forall c d, fst (login user entropy st) = HTTPException c d ->
      c = 401%Z /\ snd (login user entropy st) = st)
  /\ (forall e, fst (login user entropy st) <> Uncaught e).
Proof.
  destruct (login_cases user entropy st) as [->|(r & k & _ & _ & _ & _ & ->)]; simpl.
  - repeat split; try discriminate; congruence.
  - repeat split; try discriminate.
    intros t Hne. now rewrite lookup_insert_ne.
Qed.

(** ** Sessions side by side *)

Lemma profile_same_binding (authorization token : string) (st st' : state) :
  bearer authorization = Return token ->
  users st' = users st -> tokens st' !! token = tokens st !! token ->
  profile authorization st' = profile authorization st.
Proof.
  intros Hb Hu Ht. unfold profile, tokens_get. now rewrite Hb, Hu, Ht.
Qed.

(** X8.  [logout] revokes the token of its header and no other: [profile]
    with any other token answers after the logout what it answered before,
    so the other sessions of the same user stay open. *)
Theorem logout_keeps_other_sessions (authorization authorization' token token' : string)
    (st : state) :
  bearer authorization = Return token ->
  bearer authorization' = Return token' ->
  token <> token' ->
  profile authorization' (snd (logout authorization st)) = profile authorization' st.
Proof.
  intros Hb Hb' Hne. apply profile_same_binding with token'; [exact Hb'| |].
  - apply logout_users.
  - unfold logout. rewrite Hb. destruct (tokens st !! token); simpl; [|reflexivity].
    now rewrite lookup_delete_ne.
Qed.

(** [alice] holds two sessions; she closes the first and the second still
    answers her profile. *)
Lemma logout_keeps_other_sessions_witness :
  profile ("Bearer " +:+ token_hex 16 8)
    (snd (logout alice_header (run alice_session [Login alice 8])))
  = Return ("alice", None).
Proof.
  rewrite (logout_keeps_other_sessions alice_header ("Bearer " +:+ token_hex 16 8)
             (token_hex 16 7) (token_hex 16 8)).
  - vm_compute. reflexivity.
  - vm_compute. reflexivity.
  - vm_compute. reflexivity.
  - vm_compute. discriminate.
Defined.

(** ** Tokens and headers *)

Lemma split_app_sep (token rest : string) :
  Forall (fun c => c <> " "%char) (list_ascii_of_string token) ->
  split " " (token +:+ " " +:+ rest) = token :: split " " rest.
Proof.
  induction token as [|c token IH]; intros H.
  - reflexivity.
  - simpl in H. inversion H as [|? ? Hc Ht]; subst.
    change (String c token +:+ " " +:+ rest) with (String c (token +:+ " " +:+ rest)).
    simpl. destruct (Ascii.eqb_spec c " "); [contradiction|].
    now rewrite (IH Ht).
Qed.

Lemma bearer_first_field (token rest : string) :
  Forall (fun c => c <> " "%char) (list_ascii_of_string token) ->
  bearer ("Bearer " +:+ token +:+ " " +:+ rest) = Return token.
Proof.
  intros H. unfold bearer.
  rewrite prefix_bearer, split_bearer, (split_app_sep _ _ H). reflexivity.
Qed.

(** X9.  Only the text between the first and the second space of the header
    counts as the token: whatever follows a token and a space is ignored by
    [profile] and by [logout]. *)
Theorem header_trailing_text_ignored (token rest : string) (st : state) :
  Forall (fun c => c <> " "%char) (list_ascii_of_string token) ->
  profile ("Bearer " +:+ token +:+ " " +:+ rest) st = profile ("Bearer " +:+ token) st
  /\ logout ("Bearer " +:+ token +:+ " " +:+ rest) st = logout ("Bearer " +:+ token) st.
Proof.
  intros H. unfold profile, logout.
  now rewrite (bearer_first_field _ rest H), (bearer_token _ H).
Qed.

Lemma header_trailing_text_ignored_witness :
  profile (alice_header +:+ " and more") alice_session = profile alice_header alice_session
  /\ logout (alice_header +:+ " and more") alice_session = logout alice_header alice_session.
Proof.
  assert (Hno : Forall (fun c => c <> " "%char) (list_ascii_of_string (token_hex 16 7))).
  { vm_compute. repeat constructor; discriminate. }
  exact (header_trailing_text_ignored (token_hex 16 7) "and more" alice_session Hno).
Defined.

Lemma hexlify_length (bs : list Z) : String.length (hexlify bs) = 2 * length bs.
Proof. induction bs as [|b bs IH]; simpl; [reflexivity | rewrite IH; lia]. Qed.

Lemma be_bytes_length (n : nat) (x : Z) : length (be_bytes n x) = n.
Proof. induction n as [|n IH]; simpl; [reflexivity | now rewrite IH]. Qed.

Lemma token_hex_length (nbytes : nat) (entropy : Z) :
  String.length (token_hex nbytes entropy) = 2 * nbytes.
Proof.
  assert (H : token_hex nbytes entropy = hexlify (be_bytes nbytes entropy)) by reflexivity.
  rewrite H, hexlify_length, be_bytes_length. reflexivity.
Qed.

Lemma login_returns (user : UserIn) (entropy : Z) (st : state) (token : string) :
  fst (login user entropy st) = Return token ->
  token = token_hex 16 entropy
  /\ exists k, login user entropy st =
                 (Return token, mkState (users st) (<[token := Some k]> (tokens st))).
Proof.
  destruct (login_cases user entropy st) as [->|(r & k & _ & _ & _ & _ & ->)]; simpl;
    [discriminate|].
  intros [= <-]. eauto.
Qed.

(** X10.  A token handed out by [login] has 32 characters, is a key of the
    session map afterwards, and is read back unchanged from the header made
    of the word Bearer, a space and the token. *)
Theorem issued_token_round_trip (user : UserIn) (entropy : Z) (st : state) (token : string) :
  fst (login user entropy st) = Return token ->
  String.length token = 32
  /\ bearer ("Bearer " +:+ token) = Return token
  /\ is_Some (tokens (snd (login user entropy st)) !! token).
Proof.
  intros H. apply login_returns in H as (-> & k & ->). simpl.
  split; [apply token_hex_length|].
  split; [apply bearer_token_hex|].
  rewrite lookup_insert_eq. eauto.
Qed.

Lemma issued_token_round_trip_witness :
  String.length (token_hex 16 7) = 32
  /\ bearer ("Bearer " +:+ token_hex 16 7) = Return (token_hex 16 7)
  /\ is_Some (tokens (snd (login alice 7 (run initial [Register alice]))) !! token_hex 16 7).
Proof.
  apply (issued_token_round_trip alice 7 (run initial [Register alice])).
  vm_compute. reflexivity.
Defined.

(** X11.  Logging in and then logging out with the token received brings the
    state back to what it was, when that token was not already in use. *)
Theorem login_logout_restores (user : UserIn) (entropy : Z) (st : state) (token : string) :
  fst (login user entropy st) = Return token ->
  tokens st !! token = None ->
  logout ("Bearer " +:+ token) (snd (login user entropy st))
  = (Return "Logged out successfully", st).
Proof.
  intros H Hnew. apply login_returns in H as (-> & k & ->). simpl.
  unfold logout. rewrite bearer_token_hex. simpl. rewrite lookup_insert_eq.
  rewrite (delete_insert_id _ _ _ Hnew). now destruct st.
Qed.

Lemma login_logout_restores_witness :
  logout alice_header (snd (login alice 7 (run initial [Register alice])))
  = (Return "Logged out successfully", run initial [Register alice]).
Proof.
  apply (login_logout_restores alice 7 (run initial [Register alice]) (token_hex 16 7)).
  - vm_compute. reflexivity.
  - vm_compute. reflexivity.
Defined.

(** ** Advice: the chat and the resume analysis *)

Lemma lstrip_suffix (s : pystr) : exists spaces, s = spaces ++ lstrip s.
Proof.
  induction s as [|c s [spaces IH]]; simpl; [now exists []|].
  destruct (isspace c).
  - exists (c :: spaces). simpl. now f_equal.
  - now exists [].
Qed.

(** [strip] leaves no white space at either end. *)
Lemma strip_trimmed (s : pystr) : trimmed (strip s).
Proof.
  unfold strip. set (a := lstrip s). set (b := lstrip (rev a)). split.
  - intros c r Hrev.
    destruct (lstrip_suffix (rev a)) as [spaces Hsuf]. fold b in Hsuf.
    assert (Ha : a = rev b ++ rev spaces).
    { rewrite <- (rev_involutive a), Hsuf. apply rev_app_distr. }
    rewrite Hrev in Ha. simpl in Ha. unfold a in Ha. now apply lstrip_head in Ha.
  - intros r c Hrev.
    assert (Hb : b = c :: rev r).
    { rewrite <- (rev_involutive b), Hrev, rev_app_distr. reflexivity. }
    unfold b in Hb. now apply lstrip_head in Hb.
Qed.

Lemma first_content_trimmed (c : completion) (response : pystr) :
  first_content c = inr response -> trimmed response.
Proof.
  destruct c as [[|[s|] rest]|e]; simpl; try discriminate.
  intros [= <-]. apply strip_trimmed.
Qed.

(** X12.  The chat endpoint lets no exception escape.  A failure of the
    advisory call is answered 500 with the text of the exception as the
    detail, nothing added; an answer whose first choice has a content is
    returned stripped, so the response never starts or ends with white
    space; an answer with no choice, or with a first choice without content,
    is a 500 as well. *)
Theorem get_ai_response_outcomes (client : advisory) (user_input : pystr) :
  let messages :=
    [mkMessage "system" (str mentor_instruction); mkMessage "user" user_input] in
  let answer := fst (get_ai_response client user_input) in
  (forall e, answer <> Uncaught e)
  /\ (forall c d, answer = HTTPException c d -> c = 500%Z)
  /\ (forall e, client "deepseek-chat" messages = CreateRaises e ->
      answer = HTTPException 500 e)
  /\ (forall s rest, client "deepseek-chat" messages = Choices (Some s :: rest) ->
      answer = Return (strip s))
  /\ (client "deepseek-chat" messages = Choices [] ->
      answer = HTTPException 500 "list index out of range")
  /\ (forall rest, client "deepseek-chat" messages = Choices (None :: rest) ->
      answer = HTTPException 500 "'NoneType' object has no attribute 'strip'")
  /\ (forall response, answer = Return response -> trimmed response).
Proof.
  intros messages answer. unfold answer, get_ai_response. fold messages. simpl.
  destruct (client "deepseek-chat" messages) as [[|[s|] rest]|e] eqn:Hc; simpl;
    split_and!; try discriminate; try congruence.
  intros response [= <-]. apply strip_trimmed.
Qed.

Lemma append_prefix_inj (p a b : string) : p +:+ a = p +:+ b -> a = b.
Proof.
  induction p as [|c p IH]; [exact (fun H => H)|].
  change (String c (p +:+ a) = String c (p +:+ b) -> a = b).
  intros [= H]. now apply IH.
Qed.

Lemma analyze_pdf_blank_iff (client : advisory) (pages : list page) (full_text : pystr) :
  join_pages pages = inr full_text ->
  analyze_pdf client (PdfReader pages)
  = (if forallb isspace full_text
     then (Return (str "No extractable text found in the PDF."), [])
     else
       let messages :=
         [mkMessage "system"
            (str "You are a recruiter AI assistant. Provide feedback on the resume text.");
          mkMessage "user" full_text] in
       (match first_content (client "deepseek-chat" messages) with
        | inl e => HTTPException 500 ("Failed to analyze PDF: " +:+ e)
        | inr response => Return response
        end,
        [("deepseek-chat", messages)])).
Proof.
  intros Hj. unfold analyze_pdf. rewrite Hj, strip_nonempty.
  now destruct (forallb isspace full_text).
Qed.

(** X13.  [analyze_pdf] calls the advisory endpoint at most once and never
    again after a failure.  For a document whose pages join to a text with a
    character that is not white space, it calls once, and the user message
    is that text as joined, white space at its ends included. *)
Theorem analyze_pdf_calls (client : advisory) (file : pdf) :
  length (snd (analyze_pdf client file)) <= 1
  /\ (forall pages full_text,
      file = PdfReader pages ->
      join_pages pages = inr full_text ->
      forallb isspace full_text = false ->
      snd (analyze_pdf client file)
      = [("deepseek-chat",
          [mkMessage "system"
             (str "You are a recruiter AI assistant. Provide feedback on the resume text.");
           mkMessage "user" full_text])]).
Proof.
  split.
  - destruct file as [pages|e]; [|simpl; lia].
    destruct (join_pages pages) as [e|full_text] eqn:Hj.
    + unfold analyze_pdf. rewrite Hj. simpl. lia.
    + rewrite (analyze_pdf_blank_iff _ _ _ Hj).
      destruct (forallb isspace full_text); simpl; lia.
  - intros pages full_text -> Hj Hblank.
    now rewrite (analyze_pdf_blank_iff _ _ _ Hj), Hblank.
Qed.

(** X14.  Every answer of [analyze_pdf] is either a response without white
    space at its ends or a 500 whose detail starts with the words
    [Failed to analyze PDF: ]; no exception escapes.  A failing advisory call
    is answered with its message after those words. *)
Theorem analyze_pdf_outcomes (client : advisory) (file : pdf) :
  (forall e, fst (analyze_pdf client file) <> Uncaught e)
  /\ (forall c d, fst (analyze_pdf client file) = HTTPException c d ->
      c = 500%Z /\ exists e, d = "Failed to analyze PDF: " +:+ e)
  /\ (forall response, fst (analyze_pdf client file) = Return response -> trimmed response)
  /\ (forall pages full_text e,
      file = PdfReader pages ->
      join_pages pages = inr full_text ->
      forallb isspace full_text = false ->
      (forall messages, client "deepseek-chat" messages = CreateRaises e) ->
      fst (analyze_pdf client file) = HTTPException 500 ("Failed to analyze PDF: " +:+ e)).
Proof.
  assert (Hfixed : trimmed (str "No extractable text found in the PDF.")).
  { change (str "No extractable text found in the PDF.")
      with (strip (str "No extractable text found in the PDF.")).
    apply strip_trimmed. }
  destruct file as [pages|e0].
  2: { simpl. split_and!; try discriminate.
       intros c d [= <- <-]. eauto. }
  destruct (join_pages pages) as [e1|full_text] eqn:Hj.
  - unfold analyze_pdf. rewrite Hj. simpl. split_and!; try discriminate.
    + intros c d [= <- <-]. eauto.
    + intros pages' t' e [= <-]. congruence.
  - rewrite (analyze_pdf_blank_iff _ _ _ Hj).
    destruct (forallb isspace full_text) eqn:Hblank; simpl.
    + split_and!; try discriminate.
      * now intros response [= <-].
      * intros pages' t' e [= <-]. congruence.
    + destruct (first_content _) as [e|response] eqn:Hfc; split_and!; try discriminate.
      * intros c d [= <- <-]. eauto.
      * intros pages' t' e' [= <-] Hj' _ Hraise. rewrite Hj in Hj'. injection Hj' as <-.
        rewrite Hraise in Hfc. simpl in Hfc. congruence.
      * intros r [= <-]. now apply first_content_trimmed in Hfc.
      * intros pages' t' e' [= <-] Hj' _ Hraise. rewrite Hj in Hj'. injection Hj' as <-.
        rewrite Hraise in Hfc. discriminate.
Qed.

(** X15.  The two PDF endpoints decide alike.  [extract_pdf_text] answers
    with its warning exactly when [analyze_pdf] answers its fixed message
    without calling the advisory endpoint; and [extract_pdf_text] fails with
    the message of an exception exactly when [analyze_pdf] fails with the
    same message before any call. *)
Theorem analyze_pdf_agrees_with_extract (client : advisory) (file : pdf) :
  (extract_pdf_text file = Return (mkExtracted [] (Some "No extractable text found."))
   <-> analyze_pdf client file
       = (Return (str "No extractable text found in the PDF."), []))
  /\ (forall e,
      extract_pdf_text file = HTTPException 500 ("Failed to extract PDF: " +:+ e)
      <-> analyze_pdf client file
          = (HTTPException 500 ("Failed to analyze PDF: " +:+ e), [])).
Proof.
  destruct file as [pages|e0].
  2: { simpl. split; [split; discriminate|].
       intros e. split; intros [= H]; apply append_prefix_inj in H; now subst. }
  destruct (join_pages pages) as [e1|full_text] eqn:Hj.
  - unfold extract_pdf_text, analyze_pdf. rewrite Hj. split; [split; discriminate|].
    intros e. split; intros [= H]; apply append_prefix_inj in H; now subst.
  - rewrite (analyze_pdf_blank_iff _ _ _ Hj). unfold extract_pdf_text.
    rewrite Hj, strip_nonempty.
    destruct (forallb isspace full_text); simpl.
    + split; [tauto|]. intros e. split; discriminate.
    + split; [split; discriminate|]. intros e. split; [discriminate|].
      destruct (first_content _); discriminate.
Qed.

(** ** Job search, normalised: when it returns and what it returns *)

Lemma normalize_Ok_iff (job : json) :
  (exists listing, normalize job = Ok listing) <-> well_formed_record job.
Proof.
  unfold normalize. destruct job as [| | | | |items]; simpl;
    try (split; [intros [l H]; discriminate | contradiction]).
  destruct (dict_get "job_required_experience" items) as [[]|]; simpl;
    try (split; [intros [l H]; discriminate | tauto]);
    (destruct (dict_get "job_highlights" items) as [[]|]; simpl;
     try (split; [intros [l H]; discriminate | tauto]));
    (split; [tauto | intros _; eauto]).
Qed.

Lemma py_map_Ok_iff {A B : Type} (f : A -> py B) (l : list A) :
  (exists rs, py_map f l = Ok rs) <-> (forall a, In a l -> exists b, f a = Ok b).
Proof.
  induction l as [|a l IH]; simpl.
  - split; [intros _ a [] | eauto].
  - split.
    + intros [rs H]. destruct (f a) as [b|e] eqn:Hfa; simpl in H; [|discriminate].
      destruct (py_map f l) as [bs|e] eqn:Hl; simpl in H; [|discriminate].
      intros a' [<-|Hin]; [eauto|]. apply IH; eauto.
    + intros Hall. destruct (Hall a (or_introl eq_refl)) as [b ->]. simpl.
      destruct (proj2 IH (fun a' Hin => Hall a' (or_intror Hin))) as [bs ->]. simpl. eauto.
Qed.

(** What the [try] block of [get_jobs] returns comes from the provider's
    records, one by one. *)
Lemma get_jobs_results (env_key : option string) (requests_get : http_client)
    (query : string) (page : Z) (results : list (dict json)) :
  fst (get_jobs env_key requests_get query page) = Return results ->
  exists jobs,
    (do fetched <- fst (fetch_jobs_from_jsearch env_key requests_get query page) in
     iterate fetched) = Ok jobs
    /\ Forall2 (fun job listing => normalize job = Ok listing) jobs results.
Proof.
  unfold get_jobs, get_jobs_body.
  destruct (fetch_jobs_from_jsearch env_key requests_get query page) as [fetched sent].
  simpl. destruct fetched as [j|e]; simpl; [|destruct (is_HTTPError e); discriminate].
  destruct (iterate j) as [jobs|e]; simpl; [|destruct (is_HTTPError e); discriminate].
  destruct (py_map normalize jobs) as [rs|e] eqn:Hmap; simpl;
    [|destruct (is_HTTPError e); discriminate].
  intros [= <-]. exists jobs. split; [reflexivity | now apply py_map_Forall2].
Qed.

Lemma get_jobs_body_answered (env_key : option string) (requests_get : http_client)
    (query : string) (page : Z) (data : json) :
  answered_with (requests_get (jsearch_request env_key query page)) data ->
  fst (get_jobs_body env_key requests_get query page)
  = (do items <- iterate data in py_map normalize items).
Proof.
  intros (status & body & Hresp & Hstatus & Hdata).
  unfold get_jobs_body, fetch_jobs_from_jsearch. simpl. rewrite Hresp.
  rewrite (raise_for_status_passes _ Hstatus). simpl. now rewrite Hdata.
Qed.

Lemma get_jobs_body_Ok (env_key : option string) (requests_get : http_client)
    (query : string) (page : Z) (results : list (dict json)) :
  fst (get_jobs_body env_key requests_get query page) = Ok results ->
  exists data, answered_with (requests_get (jsearch_request env_key query page)) data.
Proof.
  unfold get_jobs_body, fetch_jobs_from_jsearch, answered_with. simpl.
  destruct (requests_get _) as [status body|e]; simpl; [|discriminate].
  destruct (Z_le_dec 400 status) as [Hlo|Hlo], (Z_lt_dec status 600) as [Hhi|Hhi].
  1: { rewrite raise_for_status_raises by lia. discriminate. }
  all: rewrite raise_for_status_passes by lia; simpl;
    destruct body as [j|]; simpl; [|discriminate];
    destruct (get j "data" (JArr [])) as [data|e] eqn:Hget; simpl; [|discriminate];
    intros _; exists data, status, j;
    (split; [reflexivity|]); (split; [lia | exact Hget]).
Qed.

(** X16.  [get_jobs] returns a list exactly when the provider answers with a
    status outside 400 to 599 and a JSON object, what that object holds under
    [data] (the empty list when the key is missing) can be iterated, and
    every item is an object whose [job_required_experience] and
    [job_highlights] are each absent or an object. *)
Theorem get_jobs_returns_iff (env_key : option string) (requests_get : http_client)
    (query : string) (page : Z) :
  (exists results, fst (get_jobs env_key requests_get query page) = Return results)
  <-> exists data items,
        answered_with (requests_get (jsearch_request env_key query page)) data
        /\ iterate data = Ok items
        /\ forall job, In job items -> well_formed_record job.
Proof.
  assert (Hans : forall results,
            fst (get_jobs env_key requests_get query page) = Return results
            <-> fst (get_jobs_body env_key requests_get query page) = Ok results).
  { intros results. unfold get_jobs.
    destruct (get_jobs_body env_key requests_get query page) as [[rs|e] sent]; simpl.
    - split; congruence.
    - destruct (is_HTTPError e); split; discriminate. }
  split.
  - intros [results H]. apply Hans in H.
    destruct (get_jobs_body_Ok _ _ _ _ _ H) as [data Hdata].
    rewrite (get_jobs_body_answered _ _ _ _ _ Hdata) in H.
    destruct (iterate data) as [items|e] eqn:Hit; simpl in H; [|discriminate].
    exists data, items. split; [exact Hdata|]. split; [exact Hit|].
    intros job Hin. apply normalize_Ok_iff.
    apply (proj1 (py_map_Ok_iff normalize items)); eauto.
  - intros (data & items & Hdata & Hit & Hall).
    destruct (proj2 (py_map_Ok_iff normalize items)) as [results Hres].
    { intros job Hin. apply normalize_Ok_iff. now apply Hall. }
    exists results. apply Hans.
    rewrite (get_jobs_body_answered _ _ _ _ _ Hdata), Hit. exact Hres.
Qed.

Lemma py_map_In_raises {A B : Type} (f : A -> py B) (l : list A) (a : A) :
  In a l -> (forall b, f a <> Ok b) -> exists e, py_map f l = Raise e.
Proof.
  intros Hin Hbad.
  destruct (py_map f l) as [rs|e] eqn:Hmap; [|eauto].
  exfalso. destruct (proj1 (py_map_Ok_iff f l) (ex_intro _ rs Hmap) a Hin) as [b Hb].
  now apply (Hbad b).
Qed.

(** X17.  One bad record spoils the whole search: when the provider's list
    holds an item that is not an object, or whose [job_required_experience]
    or [job_highlights] is present and not an object (null, say), the
    request is answered 500 and no listing is returned, however many good
    records surround it. *)
Theorem get_jobs_all_or_nothing (env_key : option string) (requests_get : http_client)
    (query : string) (page : Z) (data : json) (items : list json) (job : json) :
  answered_with (requests_get (jsearch_request env_key query page)) data ->
  iterate data = Ok items ->
  In job items -> ~ well_formed_record job ->
  fst (get_jobs env_key requests_get query page)
  = HTTPException 500 "Internal server error".
Proof.
  intros Hdata Hit Hin Hbad.
  destruct (py_map_In_raises normalize items job Hin) as [e He].
  { intros b Hb. apply Hbad, normalize_Ok_iff. eauto. }
  assert (e = AttributeError)
    by exact (py_map_raises normalize (fun e => e = AttributeError) items e
                normalize_raises He).
  subst e. unfold get_jobs.
  pose proof (get_jobs_body_answered _ _ _ _ _ Hdata) as Hbody.
  destruct (get_jobs_body env_key requests_get query page) as [outcome sent].
  simpl in *. rewrite Hbody, Hit. simpl. now rewrite He.
Qed.

(** Two good records around one whose highlights are null. *)
Lemma get_jobs_all_or_nothing_witness :
  fst (get_jobs (Some "k3y")
         (const_client (Response 200 (Some (JObj [("data",
            JArr [sample_record; JObj [("job_highlights", JNull)]; sample_record])]))))
         "python" 1)
  = HTTPException 500 "Internal server error".
Proof.
  apply (get_jobs_all_or_nothing _ _ _ _
           (JArr [sample_record; JObj [("job_highlights", JNull)]; sample_record])
           [sample_record; JObj [("job_highlights", JNull)]; sample_record]
           (JObj [("job_highlights", JNull)])).
  - exists 200%Z, (JObj [("data",
       JArr [sample_record; JObj [("job_highlights", JNull)]; sample_record])]).
    split; [reflexivity|]. split; [lia | reflexivity].
  - reflexivity.
  - simpl. tauto.
  - simpl. tauto.
Defined.

Lemma normalize_passes_through (job : json) (listing : dict json) :
  normalize job = Ok listing -> passes_through job listing.
Proof.
  destruct job as [| | | | |items]; try discriminate.
  unfold normalize. simpl.
  case_field items "job_required_experience"; simpl;
    (case_field items "job_highlights"; simpl);
    intros [= <-]; exists items; (split; [reflexivity|]); split_and!;
    try (intros key field v Hin Hv; simpl in Hin;
         repeat (destruct Hin as [[= <- <-]|Hin];
                 [simpl; rewrite Hv; reflexivity|]);
         contradiction);
    try (intros obj v Hobj Hv; simpl;
         first [ congruence
               | match goal with
                 | H1 : dict_get ?f items = Some (JObj ?a) |- _ =>
                     rewrite H1 in Hobj; injection Hobj as <-; rewrite Hv; reflexivity
                 end ]).
Qed.

(** X18.  When [get_jobs] returns, every field that is present in a provider
    record reaches its listing unchanged, a null included (the placeholder
    stands in for a missing key only); [requirements] is the
    [required_qualification] of the record's [job_required_experience] and
    [highlights] the [Qualifications] of its [job_highlights]. *)
Theorem get_jobs_passes_values_through (env_key : option string)
    (requests_get : http_client) (query : string) (page : Z)
    (results : list (dict json)) :
  fst (get_jobs env_key requests_get query page) = Return results ->
  exists jobs,
    (do fetched <- fst (fetch_jobs_from_jsearch env_key requests_get query page) in
     iterate fetched) = Ok jobs
    /\ Forall2 passes_through jobs results.
Proof.
  intros H. destruct (get_jobs_results _ _ _ _ _ H) as (jobs & Hjobs & Hall).
  exists jobs. split; [exact Hjobs|]. clear H Hjobs.
  induction Hall as [|job r jobs rs Hn _ IH]; constructor; auto.
  now apply normalize_passes_through.
Qed.

Lemma get_jobs_passes_values_through_witness :
  fst (get_jobs None detailed_provider "analyst" 2) = Return [detailed_listing]
  /\ exists jobs,
       (do fetched <- fst (fetch_jobs_from_jsearch None detailed_provider "analyst" 2) in
        iterate fetched) = Ok jobs
       /\ Forall2 passes_through jobs [detailed_listing].
Proof.
  assert (H : fst (get_jobs None detailed_provider "analyst" 2) = Return [detailed_listing])
    by reflexivity.
  split; [exact H|].
  exact (get_jobs_passes_values_through None detailed_provider "analyst" 2
           [detailed_listing] H).
Defined.

(** X19.  When the provider answers with a status that is no error and an
    object, a missing [data] key is an empty result and not an error, the
    same as an empty list; a [data] that is null is answered 500. *)
Theorem get_jobs_without_data (env_key : option string) (requests_get : http_client)
    (query : string) (page : Z) (status : Z) (body : dict json) :
  requests_get (jsearch_request env_key query page) = Response status (Some (JObj body)) ->
  ~ (400 <= status < 600)%Z ->
  (dict_get "data" body = None \/ dict_get "data" body = Some (JArr []) ->
   fst (get_jobs env_key requests_get query page) = Return [])
  /\ (dict_get "data" body = Some JNull ->
      fst (get_jobs env_key requests_get query page)
      = HTTPException 500 "Internal server error").
Proof.
  intros Hresp Hstatus.
  assert (Hbody : forall data,
            (match dict_get "data" body with Some x => x | None => JArr [] end) = data ->
            fst (get_jobs_body env_key requests_get query page)
            = (do items <- iterate data in py_map normalize items)).
  { intros data Hdata. apply get_jobs_body_answered.
    exists status, (JObj body). split; [exact Hresp|]. split; [exact Hstatus|].
    simpl. now rewrite Hdata. }
  unfold get_jobs.
  destruct (get_jobs_body env_key requests_get query page) as [outcome sent].
  simpl in Hbody. split.
  - intros Hdata. rewrite (Hbody (JArr [])); [reflexivity|].
    destruct Hdata as [-> | ->]; reflexivity.
  - intros Hdata. rewrite (Hbody JNull); [reflexivity|]. now rewrite Hdata.
Qed.

(** The provider reports a problem of its own with the status 200. *)
Lemma get_jobs_without_data_witness :
  fst (get_jobs (Some "k3y")
         (const_client (Response 200 (Some (JObj [("status", JStr "ERROR")]))))
         "python" 1)
  = Return [].
Proof.
  destruct (get_jobs_without_data (Some "k3y")
              (const_client (Response 200 (Some (JObj [("status", JStr "ERROR")]))))
              "python" 1 200 [("status", JStr "ERROR")]) as [Hnone _].
  - reflexivity.
  - lia.
  - apply Hnone. left. reflexivity.
Defined.

(** ** Job search, pass-through *)

Lemma search_jobs_with_key (RAPIDAPI_KEY : option string) (requests_get : http_client)
    (render : renderer)
    (query : string) (location country employment_type : option string) :
  truthy_opt RAPIDAPI_KEY = true ->
  exists rq,
    url rq = "https://jsearch.p.rapidapi.com/search"
    /\ dict_get "X-RapidAPI-Key" (headers rq) = Some RAPIDAPI_KEY
    /\ search_jobs RAPIDAPI_KEY requests_get render query location country employment_type
       = (match requests_get rq with
          | Raises _ => HTTPException 500 "Job search failed."
          | Response status body =>
              match raise_for_status status, body with
              | Ok _, Some j =>
                  match render j with
                  | Some rendered => Return rendered
                  | None => HTTPException 500 "Job search failed."
                  end
              | _, _ => HTTPException 500 "Job search failed."
              end
          end, [rq]).
Proof.
  intros Hkey. unfold search_jobs. rewrite Hkey. simpl.
  eexists. split; [|split; [|reflexivity]]; reflexivity.
Qed.

(** X20.  The pass-through search sends a request exactly when the
    credential is set and not empty; without it the answer is 500
    [Missing API key].  Every failure it reports has the status 500, a
    provider HTTP error included (the normalised search answers 502 there),
    and no exception escapes. *)
Theorem search_jobs_failures (RAPIDAPI_KEY : option string) (requests_get : http_client)
    (render : renderer)
    (query : string) (location country employment_type : option string) :
  let outcome :=
    search_jobs RAPIDAPI_KEY requests_get render query location country employment_type in
  (snd outcome = [] <-> truthy_opt RAPIDAPI_KEY = false)
  /\ (truthy_opt RAPIDAPI_KEY = false -> fst outcome = HTTPException 500 "Missing API key")
  /\ (forall e, fst outcome <> Uncaught e)
  /\ (forall c d, fst outcome = HTTPException c d -> c = 500%Z)
  /\ (forall rq, snd outcome = [rq] ->
      provider_http_error (requests_get rq) ->
      fst outcome = HTTPException 500 "Job search failed.").
Proof.
  intros outcome. subst outcome.
  destruct (truthy_opt RAPIDAPI_KEY) eqn:Hkey.
  - destruct (search_jobs_with_key _ requests_get render query location country
                employment_type Hkey) as (rq & _ & _ & ->). simpl.
    split_and!; try discriminate.
    + split; discriminate.
    + intros e. destruct (requests_get rq) as [status [j|]|]; try discriminate;
        destruct (raise_for_status status); try discriminate;
        destruct (render j); discriminate.
    + intros c d. destruct (requests_get rq) as [status [j|]|]; try (now intros [= <- _]);
        destruct (raise_for_status status); try (now intros [= <- _]);
        destruct (render j); try discriminate; now intros [= <- _].
    + intros rq' [= <-] [->|(status & body & -> & Hst)]; [reflexivity|].
      rewrite (raise_for_status_raises _ Hst). reflexivity.
  - unfold search_jobs. rewrite Hkey. simpl.
    split_and!; try discriminate; try reflexivity; try tauto.
    now intros c d [= <- _].
Qed.



(** X22.  A filter given as the empty string counts as not given: the
    pass-through search behaves the same whether [location], [country] and
    [employment_type] are empty or absent. *)
Theorem search_jobs_empty_filters (RAPIDAPI_KEY : option string) (requests_get : http_client)
    (render : renderer)
    (query : string) (location country employment_type : option string) :
  search_jobs RAPIDAPI_KEY requests_get render query
    (if truthy_opt location then location else None)
    (if truthy_opt country then country else None)
    (if truthy_opt employment_type then employment_type else None)
  = search_jobs RAPIDAPI_KEY requests_get render query location country employment_type.
Proof.
  assert (Hp : forall k o, param_if k (if truthy_opt o then o else None) = param_if k o).
  { intros k [s|]; simpl; [|reflexivity]. now destruct (truthy s) eqn:Ht; simpl; rewrite ?Ht. }
  assert (Ht : forall o : option string,
            (if truthy_opt (if truthy_opt o then o else None)
             then (if truthy_opt o then o else None) else None)
            = (if truthy_opt o then o else None)).
  { intros [s|]; simpl; [|reflexivity]. now destruct (truthy s) eqn:Hs; simpl; rewrite ?Hs. }
  unfold search_jobs. simpl. now rewrite !Hp, !Ht.
Qed.

(** ** Where tokens come from *)

Lemma step_token_origin (st : state) (rq : api_call) (token : string) :
  is_Some (tokens (step st rq) !! token) ->
  is_Some (tokens st !! token)
  \/ exists user entropy, rq = Login user entropy /\ fst (login user entropy st) = Return token.
Proof.
  destruct rq as [user|user entropy|a|a]; simpl.
  - rewrite register_tokens. now left.
  - destruct (login_cases user entropy st) as [Hfail|(r & k & _ & _ & _ & _ & Hok)].
    + rewrite Hfail. now left.
    + rewrite Hok. simpl. destruct (decide (token_hex 16 entropy = token)) as [<-|Hne].
      * intros _. right. exists user, entropy. now rewrite Hok.
      * rewrite lookup_insert_ne by exact Hne. now left.
  - now left.
  - unfold logout. destruct (bearer a) as [t| |]; simpl; try (now left).
    destruct (tokens st !! t) eqn:Ht; simpl; [|now left].
    rewrite lookup_delete. case_decide; [intros [x Hx]; discriminate | now left].
Qed.

Lemma run_token_origin (rqs : list api_call) (st : state) (token : string) :
  is_Some (tokens (run st rqs) !! token) ->
  is_Some (tokens st !! token)
  \/ exists before after user entropy,
       rqs = before ++ Login user entropy :: after
       /\ fst (login user entropy (run st before)) = Return token.
Proof.
  revert st. induction rqs as [|rq rqs IH]; intros st H; [now left|].
  change (run st (rq :: rqs)) with (run (step st rq) rqs) in H.
  destruct (IH _ H) as [Hstep|(before & after & user & entropy & -> & Hlog)].
  - destruct (step_token_origin _ _ _ Hstep) as [Hst|(user & entropy & -> & Hlog)];
      [now left|].
    right. exists [], rqs, user, entropy. now split.
  - right. exists (rq :: before), after, user, entropy. now split.
Qed.

(** X23.  [profile] answers with a body only for a token that an earlier
    successful [login] returned: in every state reached from the empty one,
    the history of calls contains a login that succeeded, in the state of
    its time, with exactly the token read from the header. *)
Theorem profile_needs_login (rqs : list api_call) (authorization : string)
    (body : string * option string) :
  profile authorization (run initial rqs) = Return body ->
  exists before after user entropy token,
    rqs = before ++ Login user entropy :: after
    /\ fst (login user entropy (run initial before)) = Return token
    /\ bearer authorization = Return token.
Proof.
  intros Hp. unfold profile, tokens_get in Hp.
  destruct (bearer authorization) as [token| |] eqn:Hb; try discriminate.
  destruct (tokens (run initial rqs) !! token) as [bound|] eqn:Htok; [|discriminate].
  destruct (run_token_origin rqs initial token) as [Hinit|(before & after & u & e & Hrqs & Hlog)].
  - rewrite Htok. eauto.
  - simpl in Hinit. rewrite lookup_empty in Hinit. now destruct Hinit.
  - exists before, after, u, e, token. auto.
Qed.

Lemma profile_needs_login_witness :
  exists before after user entropy token,
    [Register alice; Login alice 7; Register bob] = before ++ Login user entropy :: after
    /\ fst (login user entropy (run initial before)) = Return token
    /\ bearer alice_header = Return token.
Proof.
  apply (profile_needs_login [Register alice; Login alice 7; Register bob] alice_header
           ("alice", None)).
  vm_compute. reflexivity.
Defined.
